(** * ReinitTaskWrapper: a task-switching proxy over an environment factory

    Shallow embedding of [syllabus/core/reinit_task_wrapper.py].

    The wrapper keeps one active environment object, a dictionary of the
    environment objects it has built so far (keyed by task id) and a flag
    telling whether the last episode has ended.  Environment objects live
    outside the wrapper; here they are references into an opaque outside
    world, and the factory [env_fn] and the [reset] and [step] methods of an
    environment object are arbitrary functions on that world which either
    return or raise.  The info mapping that [step] hands back is taken as a
    value: the key the wrapper adds to it is seen by the caller.

    Every method is a computation in a state-and-exception monad: a Python
    exception leaves the wrapper object as the statements executed so far
    have left it, and the caller may go on using it. *)

From Stdlib Require Import ZArith.
From stdpp Require Import base option list gmap strings.

Local Open Scope list_scope.

(** ** Values *)

(** An environment object is known by its identity only. *)
Definition Ref := positive.

(** A task id is what [new_task: int = None] can hold: an integer or
    Python's [None].  It is also the key type of the [task_envs] dict. *)
Abbreviation Task := (option Z) (only parsing).

(** Exceptions: the two that the wrapper's own statements can raise, and
    whatever a collaborator raised, carried unchanged. *)
Inductive exn (Exn : Type) : Type :=
  | RuntimeError (msg : string)
  | KeyError (key : Task)
  | Foreign (e : Exn).
Arguments RuntimeError {Exn} msg.
Arguments KeyError {Exn} key.
Arguments Foreign {Exn} e.

(** The message of the guard of [change_task]. *)
Definition mid_episode : string := "Cannot change task mid-episode.".

(** How a call ends. *)
Inductive outcome (Exn A : Type) : Type :=
  | Returns (a : A)
  | Raises (e : exn Exn).
Arguments Returns {Exn A} a.
Arguments Raises {Exn A} e.

(** The wrapper's own fields.  [env_fn] is never reassigned; it is kept with
    the collaborators below. *)
Record ReinitTaskWrapper (Space : Type) : Type := MkWrapper {
  env : Ref;
  task_envs : gmap (option Z) Ref;
  task_space : option Space;
  done : bool
}.
Arguments MkWrapper {Space} env task_envs task_space done.
Arguments env {Space} r.
Arguments task_envs {Space} r.
Arguments task_space {Space} r.
Arguments done {Space} r.

(** Calls that leave the wrapper, in the order they are made. *)
Inductive event (Action Kwargs : Type) : Type :=
  | CallEnvFn (task : Task)
  | CallReset (e : Ref) (kwargs : Kwargs)
  | CallStep (e : Ref) (action : Action).
Arguments CallEnvFn {Action Kwargs} task.
Arguments CallReset {Action Kwargs} e kwargs.
Arguments CallStep {Action Kwargs} e action.

(** The whole machine: the outside world (all environment objects and
    whatever else the collaborators touch), the calls made so far, and the
    wrapper object. *)
Record machine (Ext Action Kwargs Space : Type) : Type := MkMachine {
  outside : Ext;
  calls : list (event Action Kwargs);
  self : ReinitTaskWrapper Space
}.
Arguments MkMachine {Ext Action Kwargs Space} outside calls self.
Arguments outside {Ext Action Kwargs Space} m.
Arguments calls {Ext Action Kwargs Space} m.
Arguments self {Ext Action Kwargs Space} m.

(** ** Collaborators

    What the wrapper is given and what it inherits.  [Ext] is the outside
    world; a collaborator maps it to a new one and either returns ([inr]) or
    raises ([inl]).
    - [env_fn] is the factory handed to the constructor;
    - [env_reset e kwargs] and [env_step e action] are the methods
      [reset( **kwargs )] and [step(action)] of the environment object [e];
    - [observation] and [_task_completion] are the hooks inherited from
      [TaskWrapper], which is not part of this file and which subclasses
      override; they see their arguments only. *)
Class Collaborators (Ext Obs Action Reward Kwargs InfoVal Exn : Type) := {
  env_fn : Task → Ext → Ext * (Exn + Ref);
  env_reset : Ref → Kwargs → Ext → Ext * (Exn + Obs);
  env_step : Ref → Action → Ext →
             Ext * (Exn + (Obs * Reward * bool * gmap string InfoVal));
  observation : Obs → Exn + Obs;
  _task_completion : Obs → Reward → bool → gmap string InfoVal → Exn + InfoVal
}.

(** What a caller can do with the wrapper. *)
Inductive call (Action Kwargs : Type) : Type :=
  | Reset (new_task : Task) (kwargs : Kwargs)
  | ChangeTask (new_task : Task)
  | Step (action : Action).
Arguments Reset {Action Kwargs} new_task kwargs.
Arguments ChangeTask {Action Kwargs} new_task.
Arguments Step {Action Kwargs} action.

Section Wrapper.
Context {Ext Obs Action Reward Kwargs InfoVal Space Exn : Type}.
Context `{!Collaborators Ext Obs Action Reward Kwargs InfoVal Exn}.

Abbreviation StepResult := (Obs * Reward * bool * gmap string InfoVal)%type
  (only parsing).
Abbreviation Machine := (machine Ext Action Kwargs Space) (only parsing).
Abbreviation Wrapper := (ReinitTaskWrapper Space) (only parsing).

(** *** The monad *)

Definition M (A : Type) : Type := Machine → Machine * outcome Exn A.

#[export] Instance M_ret : MRet M := λ A a m, (m, Returns a).
#[export] Instance M_bind : MBind M := λ A B f c m,
  match c m with
  | (m', Returns a) => f a m'
  | (m', Raises e) => (m', Raises e)
  end.

Definition raise {A} (e : exn Exn) : M A := λ m, (m, Raises e).

(** Reading and writing the attributes of [self]. *)
Definition get {A} (field : Wrapper → A) : M A :=
  λ m, (m, Returns (field (self m))).
Definition put (f : Wrapper → Wrapper) : M unit :=
  λ m, (MkMachine (outside m) (calls m) (f (self m)), Returns tt).

Definition set_env (e : Ref) : M unit :=
  put (λ s, MkWrapper e (task_envs s) (task_space s) (done s)).
Definition set_done (d : bool) : M unit :=
  put (λ s, MkWrapper (env s) (task_envs s) (task_space s) d).
(** [self.task_envs[key] = e] *)
Definition set_item (key : Task) (e : Ref) : M unit :=
  put (λ s, MkWrapper (env s) (<[key := e]> (task_envs s)) (task_space s)
              (done s)).
(** [self.task_envs[key]] *)
Definition get_item (key : Task) : M Ref :=
  d ← get task_envs;
  match d !! key with
  | Some e => mret e
  | None => raise (KeyError key)
  end.

(** What a collaborator answered, as the wrapper's caller sees it: the
    wrapper has no [try], so an exception is passed on as it is. *)
Definition answer {A} (r : Exn + A) : outcome Exn A :=
  match r with
  | inl e => Raises (Foreign e)
  | inr a => Returns a
  end.

(** A call to a collaborator: logged and run on the outside world. *)
Definition extern {A} (ev : event Action Kwargs)
    (f : Ext → Ext * (Exn + A)) : M A :=
  λ m, let '(x, r) := f (outside m) in
       (MkMachine x (calls m ++ [ev]) (self m), answer r).

(** A call to a hook. *)
Definition hook {A} (r : Exn + A) : M A := λ m, (m, answer r).

(** *** The methods *)

Definition __init__ (env0 : Ref) (space : option Space) : Wrapper :=
  MkWrapper env0 ∅ space true.

Definition change_task (new_task : Task) : M unit :=
  d ← get done;
  if negb d then raise (RuntimeError mid_episode)
  else
    cache ← get task_envs;
    (match cache !! new_task with
     | None => e ← extern (CallEnvFn new_task) (env_fn new_task);
               set_item new_task e
     | Some _ => mret tt
     end);;
    e ← get_item new_task;
    set_env e.

Definition reset (new_task : Task) (kwargs : Kwargs) : M Obs :=
  (match new_task with
   | Some _ => change_task new_task
   | None => mret tt
   end);;
  set_done false;;
  e ← get env;
  o ← extern (CallReset e kwargs) (env_reset e kwargs);
  hook (observation o).

Definition step (action : Action) : M StepResult :=
  e ← get env;
  '(obs, rew, d, info) ← extern (CallStep e action) (env_step e action);
  set_done d;;
  tc ← hook (_task_completion obs rew d info);
  let info := <["task_completion" := tc]> info in
  o ← hook (observation obs);
  mret (o, rew, d, info).

(** *** A caller *)

(** The machine as the constructor leaves it: nothing called yet. *)
Definition boot (x0 : Ext) (env0 : Ref) (space : option Space) : Machine :=
  MkMachine x0 [] (__init__ env0 space).

(** One call; the caller survives an exception and keeps the object. *)
Definition exec (c : call Action Kwargs) (m : Machine) : Machine :=
  match c with
  | Reset new_task kwargs => (reset new_task kwargs m).1
  | ChangeTask new_task => (change_task new_task m).1
  | Step action => (step action m).1
  end.

Definition run (cs : list (call Action Kwargs)) (m : Machine) : Machine :=
  foldl (λ m c, exec c m) m cs.

(** *** Vocabulary of the properties *)

(** How many times the factory was called for [task]. *)
Fixpoint factory_calls (task : Task) (l : list (event Action Kwargs)) : nat :=
  match l with
  | [] => 0
  | CallEnvFn t :: l => (if decide (t = task) then 1 else 0) + factory_calls task l
  | _ :: l => factory_calls task l
  end.

(** The active environment is cached or is the one given at construction. *)
Definition active_known (env0 : Ref) (s : Wrapper) : Prop :=
  env s = env0 ∨ ∃ key, task_envs s !! key = Some (env s).

(** An exception raised by a statement of the wrapper itself. *)
Definition own_error {A} (r : outcome Exn A) : bool :=
  match r with
  | Raises (RuntimeError _) | Raises (KeyError _) => true
  | _ => false
  end.

(** The wrapper once an episode has started, and once the environment has
    answered [d] to a step. *)
Definition with_done (d : bool) (s : Wrapper) : Wrapper :=
  MkWrapper (env s) (task_envs s) (task_space s) d.

(** Nothing but the flag differs between [s] and [s']. *)
Definition same_but_done (s s' : Wrapper) : Prop :=
  env s' = env s ∧ task_envs s' = task_envs s ∧ task_space s' = task_space s.

(** The four ways a call of [change_task] can go. *)
Inductive change_task_case (t : Task) (m : Machine) :
    Machine * outcome Exn unit → Prop :=
  | ct_busy :
      done (self m) = false →
      change_task_case t m (m, Raises (RuntimeError mid_episode))
  | ct_hit e :
      done (self m) = true → task_envs (self m) !! t = Some e →
      change_task_case t m
        (MkMachine (outside m) (calls m)
           (MkWrapper e (task_envs (self m)) (task_space (self m)) true),
         Returns tt)
  | ct_miss_raises x ex :
      done (self m) = true → task_envs (self m) !! t = None →
      env_fn t (outside m) = (x, inl ex) →
      change_task_case t m
        (MkMachine x (calls m ++ [CallEnvFn t]) (self m), Raises (Foreign ex))
  | ct_miss_returns x e :
      done (self m) = true → task_envs (self m) !! t = None →
      env_fn t (outside m) = (x, inr e) →
      change_task_case t m
        (MkMachine x (calls m ++ [CallEnvFn t])
           (MkWrapper e (<[t := e]> (task_envs (self m))) (task_space (self m))
              true),
         Returns tt).

End Wrapper.

(** ** A small world to run the wrapper in

    Environment objects are numbered in the order they are built: the one
    given to the constructor is object 1 and the factory's [n]-th object is
    object [n + 1], so that no two calls of the factory return the same
    object.  The factory refuses negative task ids.  An action is the [done]
    flag the environment is to answer with; the hooks are those of the base
    class: the identity on observations, and completion 1 at the end of an
    episode and 0 before. *)
Module Demo.

Definition toy_env_fn (task : Task) (built : nat) : nat * (string + Ref) :=
  match task with
  | Some (Zneg _) => (built, inl "IndexError")
  | _ => (S built, inr (Pos.of_nat (built + 2)))
  end.

Definition toy_reset (e : Ref) (kwargs : list (string * Z)) (built : nat)
    : nat * (string + nat) :=
  (built, inr 0).

Definition toy_step (e : Ref) (action : bool) (built : nat)
    : nat * (string + (nat * Z * bool * gmap string Z)) :=
  (built, inr (1, 1%Z, action, ∅)).

#[global] Instance toy : Collaborators nat nat bool Z (list (string * Z)) Z string := {
  env_fn := toy_env_fn;
  env_reset := toy_reset;
  env_step := toy_step;
  observation := inr;
  _task_completion := λ _ _ d _, inr (if d then 1%Z else 0%Z)
}.

(** A freshly built wrapper around object 1, with no task space. *)
Definition fresh : machine nat bool (list (string * Z)) unit :=
  boot 0 1%positive None.

(** The same wrapper in the middle of an episode. *)
Definition busy : machine nat bool (list (string * Z)) unit :=
  run [Reset (Some 0%Z) []; Step false] fresh.

(** ... and after two whole episodes, on task 0 and then on task 1. *)
Definition rested : machine nat bool (list (string * Z)) unit :=
  run [Reset (Some 0%Z) []; Step false; Step true;
       Reset (Some 1%Z) []; Step true] fresh.

End Demo.

(** ** The self-test of the module

    The block under [if __name__ == "__main__"] drives the wrapper through
    whole episodes.  [run_episode] needs three more things from outside:
    - [sample e] is [env.action_space.sample()], which a [gym.Wrapper] takes
      from the environment [e] it wraps at that moment;
    - [class_name e] is [type(env.unwrapped).__name__];
    - [no_reward] and [add_reward] are the [0] that [ep_rew] starts from and
      the [+=] that adds a reward to it.
    [no_kwargs] stands for the absent keyword arguments of
    [env.reset(new_task=task)]. *)
Class Driver (Ext Action Reward Kwargs Exn : Type) := {
  sample : Ref → Ext → Ext * (Exn + Action);
  class_name : Ref → Ext → string;
  no_kwargs : Kwargs;
  no_reward : Reward;
  add_reward : Reward → Reward → Reward
}.

(** [l[i]] for a Python list and an integer: a negative index counts from
    the end; outside [-len(l) <= i < len(l)] there is no element
    ([IndexError]). *)
Definition py_getitem {A} (l : list A) (i : Z) : option A :=
  if (0 <=? i)%Z then l !! Z.to_nat i
  else if (- Z.of_nat (length l) <=? i)%Z
       then l !! Z.to_nat (Z.of_nat (length l) + i)
       else None.

(** The task classes that [create_env] chooses from, by name. *)
Definition task_classes : list string :=
  ["NetHackScore"; "NetHackStaircase"; "NetHackStaircasePet"; "NetHackOracle";
   "NetHackGold"; "NetHackEat"; "NetHackScout"].

Section SelfTest.
Context {Ext Obs Action Reward Kwargs InfoVal Space Exn : Type}.
Context `{!Collaborators Ext Obs Action Reward Kwargs InfoVal Exn}.
Context `{!Driver Ext Action Reward Kwargs Exn}.

(** The tasks that a call names. *)
Definition asked (c : call Action Kwargs) : gset (option Z) :=
  match c with
  | Reset (Some z) _ => {[ Some z ]}
  | ChangeTask t => {[ t ]}
  | _ => ∅
  end.


Definition requested (cs : list (call Action Kwargs)) : gset (option Z) :=
  ⋃ (asked <$> cs).

(** The episode is active before each call of [cs], made in turn from [m]. *)
Fixpoint active_before_each (cs : list (call Action Kwargs))
    (m : machine Ext Action Kwargs Space) : bool :=
  match cs with
  | [] => true
  | c :: cs => negb (done (self m)) && active_before_each cs (exec c m)
  end.

(** The factory has been asked for [T] once if [T] is cached, and never
    otherwise. *)
Definition built_once (T : option Z)
    (m : machine Ext Action Kwargs Space) : Prop :=
  factory_calls T (calls m) =
    match task_envs (self m) !! T with Some _ => 1 | None => 0 end.

(** [env.action_space.sample()]: the sampler of the active environment. *)
Definition sample_action (m : machine Ext Action Kwargs Space)
    : machine Ext Action Kwargs Space * outcome Exn Action :=
  let '(x, r) := sample (env (self m)) (outside m) in
  (MkMachine x (calls m) (self m), answer r).

(** The loop of [run_episode]; [finished] is its local variable [done].
    [None] when [fuel] iterations were not enough to see the end. *)
Fixpoint while_not_done (fuel : nat) (finished : bool) (ep_rew : Reward)
    (m : machine Ext Action Kwargs Space)
    : option (machine Ext Action Kwargs Space * outcome Exn Reward) :=
  if finished then Some (m, Returns ep_rew)
  else
    match fuel with
    | 0 => None
    | S fuel =>
        match sample_action m with
        | (m1, Raises e) => Some (m1, Raises e)
        | (m1, Returns action) =>
            match step action m1 with
            | (m2, Raises e) => Some (m2, Raises e)
            | (m2, Returns (_, rew, d, _)) =>
                while_not_done fuel d (add_reward ep_rew rew) m2
            end
        end
    end.

(** [run_episode(env, task, verbose)].  It returns nothing; what it prints
    when [verbose] is set, the class name and the episodic reward, is the
    value here. *)
Definition run_episode (fuel : nat) (task : Task) (verbose : bool)
    (m : machine Ext Action Kwargs Space)
    : option (machine Ext Action Kwargs Space *
              outcome Exn (option (string * Reward))) :=
  match reset task no_kwargs m with
  | (m1, Raises e) => Some (m1, Raises e)
  | (m1, Returns _) =>
      let task_name := class_name (env (self m1)) (outside m1) in
      match while_not_done fuel false no_reward m1 with
      | None => None
      | Some (m2, Raises e) => Some (m2, Raises e)
      | Some (m2, Returns ep_rew) =>
          Some (m2, Returns (if verbose then Some (task_name, ep_rew) else None))
      end
  end.

(** One loop of the self-test: [for ...: run_episode(env, task=..., verbose=0)]
    with the tasks of the successive rounds in [tasks]; an exception ends
    the loop. *)
Fixpoint run_episodes (fuel : nat) (tasks : list Task)
    (m : machine Ext Action Kwargs Space)
    : option (machine Ext Action Kwargs Space * outcome Exn unit) :=
  match tasks with
  | [] => Some (m, Returns tt)
  | task :: tasks =>
      match run_episode fuel task false m with
      | None => None
      | Some (m1, Raises e) => Some (m1, Raises e)
      | Some (m1, Returns _) => run_episodes fuel tasks m1
      end
  end.

End SelfTest.

(** [create_env(task)]: the class at index [task] of the list, built by
    [construct]; [task_classes[task]] raises [IndexError] outside the list
    and [TypeError] for [None]. *)
Definition create_env {Ext Exn : Type}
    (construct : string → Ext → Ext * (Exn + Ref))
    (index_error type_error : Exn) (task : Task) (x : Ext)
    : Ext * (Exn + Ref) :=
  match task with
  | None => (x, inl type_error)
  | Some i =>
      match py_getitem task_classes i with
      | None => (x, inl index_error)
      | Some task_class => construct task_class x
      end
  end.

(** ** The world of the self-test

    The outside world holds the class of every object built so far, the
    object given to the constructor first, and the number of steps left in
    the running episode; an episode lasts three steps. *)
Module Bench.

Definition construct (task_class : string) (x : list string * nat)
    : (list string * nat) * (string + Ref) :=
  ((x.1 ++ [task_class], x.2), inr (Pos.of_nat (length x.1 + 1))).

Definition clock_reset (e : Ref) (kwargs : list (string * Z))
    (x : list string * nat) : (list string * nat) * (string + nat) :=
  ((x.1, 3), inr 0).

Definition clock_step (e : Ref) (action : unit) (x : list string * nat)
    : (list string * nat) * (string + (nat * Z * bool * gmap string Z)) :=
  ((x.1, x.2 - 1), inr (0, 1%Z, bool_decide (x.2 ≤ 1), ∅)).

#[export] Instance clock :
    Collaborators (list string * nat) nat unit Z (list (string * Z)) Z string := {
  env_fn := create_env construct "IndexError" "TypeError";
  env_reset := clock_reset;
  env_step := clock_step;
  observation := inr;
  _task_completion := λ _ _ d _, inr (if d then 1%Z else 0%Z)
}.

#[export] Instance driver :
    Driver (list string * nat) unit Z (list (string * Z)) string := {
  sample := λ e x, (x, inr tt);
  class_name := λ e x, default "" (x.1 !! (Pos.to_nat e - 1));
  no_kwargs := [];
  no_reward := 0%Z;
  add_reward := Z.add
}.

(** [ReinitTaskWrapper(NetHackScore(), create_env)] *)
Definition start : machine (list string * nat) unit (list (string * Z)) unit :=
  boot (["NetHackScore"], 0) 1%positive None.

End Bench.

(** The small world again, with environments whose [reset] takes no
    keyword argument and raises when given one. *)
Module Faulty.



End Faulty.

(** The world of the self-test once more, with a step counter of its own
    for every environment object: [reset] of an object sets its counter to
    three, [step] of an object lowers its counter and ends the episode when
    it runs out; the counters of the other objects are left alone. *)
Module Meters.

Definition steps_left (e : Ref) (x : list string * gmap positive nat) : nat :=
  default 0 (x.2 !! e).

Definition construct (task_class : string) (x : list string * gmap positive nat)
    : (list string * gmap positive nat) * (string + Ref) :=
  ((x.1 ++ [task_class], x.2), inr (Pos.of_nat (length x.1 + 1))).

Definition meter_reset (e : Ref) (kwargs : list (string * Z))
    (x : list string * gmap positive nat)
    : (list string * gmap positive nat) * (string + nat) :=
  ((x.1, <[e := 3]> x.2), inr 0).

Definition meter_step (e : Ref) (action : unit)
    (x : list string * gmap positive nat)
    : (list string * gmap positive nat) *
      (string + (nat * Z * bool * gmap string Z)) :=
  ((x.1, <[e := steps_left e x - 1]> x.2),
   inr (0, 1%Z, bool_decide (steps_left e x ≤ 1), ∅)).

#[export] Instance meters :
    Collaborators (list string * gmap positive nat) nat unit Z
      (list (string * Z)) Z string := {
  env_fn := create_env construct "IndexError" "TypeError";
  env_reset := meter_reset;
  env_step := meter_step;
  observation := inr;
  _task_completion := λ _ _ d _, inr (if d then 1%Z else 0%Z)
}.

#[export] Instance meters_driver :
    Driver (list string * gmap positive nat) unit Z (list (string * Z)) string := {
  sample := λ e x, (x, inr tt);
  class_name := λ e x, default "" (x.1 !! (Pos.to_nat e - 1));
  no_kwargs := [];
  no_reward := 0%Z;
  add_reward := Z.add
}.

(** [ReinitTaskWrapper(NetHackScore(), create_env)] *)
Definition meters_start
    : machine (list string * gmap positive nat) unit (list (string * Z)) unit :=
  boot (["NetHackScore"], ∅) 1%positive None.

End Meters.

(** ** Facts *)

Section Facts.
Context {Ext Obs Action Reward Kwargs InfoVal Space Exn : Type}.
Context `{!Collaborators Ext Obs Action Reward Kwargs InfoVal Exn}.

Implicit Types (m : machine Ext Action Kwargs Space).
Implicit Types (s : ReinitTaskWrapper Space).
Implicit Types (t new_task : option Z) (e : Ref) (x : Ext) (ex : Exn).
Implicit Types (kwargs : Kwargs) (action : Action).
Implicit Types (cs : list (call Action Kwargs)).

(** Unfolds the monad down to matches on the collaborators' answers. *)
Ltac unmonad :=
  unfold change_task, reset, step, get_item, set_env, set_done, set_item,
    get, put, extern, hook, raise, mbind, mret, M_bind, M_ret, with_done;
  simpl.

(** *** [change_task], case by case *)

Lemma change_task_busy t m :
  done (self m) = false →
  change_task t m = (m, Raises (RuntimeError mid_episode)).
Proof. intros Hd. unmonad. by rewrite Hd. Qed.

Lemma change_task_hit t m e :
  done (self m) = true → task_envs (self m) !! t = Some e →
  change_task t m =
    (MkMachine (outside m) (calls m)
       (MkWrapper e (task_envs (self m)) (task_space (self m)) true),
     Returns tt).
Proof.
  intros Hd Ht. destruct m as [x l [e0 c ts d]]; simpl in *; subst d.
  unmonad. rewrite Ht. simpl. by rewrite Ht.
Qed.

Lemma change_task_miss_raises t m x ex :
  done (self m) = true → task_envs (self m) !! t = None →
  env_fn t (outside m) = (x, inl ex) →
  change_task t m =
    (MkMachine x (calls m ++ [CallEnvFn t]) (self m), Raises (Foreign ex)).
Proof.
  intros Hd Ht Hf. destruct m as [x0 l [e0 c ts d]]; simpl in *; subst d.
  unmonad. rewrite Ht. simpl. by rewrite Hf.
Qed.

Lemma change_task_miss_returns t m x e :
  done (self m) = true → task_envs (self m) !! t = None →
  env_fn t (outside m) = (x, inr e) →
  change_task t m =
    (MkMachine x (calls m ++ [CallEnvFn t])
       (MkWrapper e (<[t := e]> (task_envs (self m))) (task_space (self m)) true),
     Returns tt).
Proof.
  intros Hd Ht Hf. destruct m as [x0 l [e0 c ts d]]; simpl in *; subst d.
  unmonad. rewrite Ht. simpl. rewrite Hf. simpl. by rewrite lookup_insert_eq.
Qed.

Lemma change_task_cases t m : change_task_case t m (change_task t m).
Proof.
  destruct (done (self m)) eqn:Hd.
  - destruct (task_envs (self m) !! t) as [e|] eqn:Ht.
    + rewrite (change_task_hit t m e Hd Ht). by constructor.
    + destruct (env_fn t (outside m)) as [x [ex|e]] eqn:Hf.
      * rewrite (change_task_miss_raises t m x ex Hd Ht Hf). by constructor.
      * rewrite (change_task_miss_returns t m x e Hd Ht Hf). by constructor.
  - rewrite (change_task_busy t m Hd). by constructor.
Qed.

(** *** [reset] *)

Lemma reset_None_raises kwargs m x ex :
  env_reset (env (self m)) kwargs (outside m) = (x, inl ex) →
  reset None kwargs m =
    (MkMachine x (calls m ++ [CallReset (env (self m)) kwargs])
       (with_done false (self m)),
     Raises (Foreign ex)).
Proof. intros Hr. unmonad. by rewrite Hr. Qed.

Lemma reset_None_returns kwargs m x (o : Obs) :
  env_reset (env (self m)) kwargs (outside m) = (x, inr o) →
  reset None kwargs m =
    (MkMachine x (calls m ++ [CallReset (env (self m)) kwargs])
       (with_done false (self m)),
     answer (observation o)).
Proof. intros Hr. unmonad. by rewrite Hr. Qed.

Lemma reset_Some_raises (z : Z) kwargs m m1 (err : exn Exn) :
  change_task (Some z) m = (m1, Raises err) →
  reset (Some z) kwargs m = (m1, Raises err).
Proof. intros Hc. unfold reset, mbind, M_bind at 1. by rewrite Hc. Qed.

Lemma reset_Some_returns (z : Z) kwargs m m1 :
  change_task (Some z) m = (m1, Returns tt) →
  reset (Some z) kwargs m = reset None kwargs m1.
Proof. intros Hc. unfold reset, mbind, M_bind at 1. by rewrite Hc. Qed.

(** *** [step] *)

Lemma step_raises action m x ex :
  env_step (env (self m)) action (outside m) = (x, inl ex) →
  step action m =
    (MkMachine x (calls m ++ [CallStep (env (self m)) action]) (self m),
     Raises (Foreign ex)).
Proof. intros Hs. unmonad. by rewrite Hs. Qed.

Lemma step_returns action m x (obs : Obs) (rew : Reward) (d : bool)
    (info : gmap string InfoVal) :
  env_step (env (self m)) action (outside m) = (x, inr (obs, rew, d, info)) →
  step action m =
    (MkMachine x (calls m ++ [CallStep (env (self m)) action])
       (with_done d (self m)),
     match _task_completion obs rew d info with
     | inl ex => Raises (Foreign ex)
     | inr tc =>
         match observation obs with
         | inl ex => Raises (Foreign ex)
         | inr o => Returns (o, rew, d, <["task_completion" := tc]> info)
         end
     end).
Proof.
  intros Hs. unmonad. rewrite Hs. simpl.
  destruct (_task_completion obs rew d info) as [ex|tc]; simpl; [done|].
  by destruct (observation obs).
Qed.

(** *** What a call leaves alone *)

Lemma same_but_done_refl s : same_but_done s s.
Proof. by repeat split. Qed.

Lemma same_but_done_with d s : same_but_done s (with_done d s).
Proof. by repeat split. Qed.

Lemma same_but_done_trans s1 s2 s3 :
  same_but_done s1 s2 → same_but_done s2 s3 → same_but_done s1 s3.
Proof. intros (?&?&?) (?&?&?). repeat split; congruence. Qed.

Lemma step_frame action m :
  same_but_done (self m) (self (step action m).1) ∧
  calls (step action m).1 = calls m ++ [CallStep (env (self m)) action].
Proof.
  destruct (env_step (env (self m)) action (outside m))
    as [x [ex|[[[obs rew] d] info]]] eqn:Hs.
  - rewrite (step_raises _ _ _ _ Hs). split; [apply same_but_done_refl|done].
  - rewrite (step_returns _ _ _ _ _ _ _ Hs).
    split; [apply same_but_done_with|done].
Qed.

Lemma reset_None_frame kwargs m :
  same_but_done (self m) (self (reset None kwargs m).1) ∧
  done (self (reset None kwargs m).1) = false ∧
  calls (reset None kwargs m).1 = calls m ++ [CallReset (env (self m)) kwargs].
Proof.
  destruct (env_reset (env (self m)) kwargs (outside m)) as [x [ex|o]] eqn:Hr.
  - rewrite (reset_None_raises _ _ _ _ Hr).
    split; [apply same_but_done_with|done].
  - rewrite (reset_None_returns _ _ _ _ Hr).
    split; [apply same_but_done_with|done].
Qed.

(** *** [change_task] only ever adds to the cache *)

Lemma change_task_keeps t m (key : option Z) e :
  task_envs (self m) !! key = Some e →
  task_envs (self (change_task t m).1) !! key = Some e.
Proof.
  intros Hk. destruct (change_task_cases t m) as [?|e' ? ?|x ex ? ? ?|x e' ? Ht ?];
    simpl; try done.
  rewrite lookup_insert_ne; [done|]. intros <-. congruence.
Qed.

Lemma change_task_cached_quiet t m e :
  task_envs (self m) !! t = Some e → calls (change_task t m).1 = calls m.
Proof.
  intros Hk. destruct (change_task_cases t m) as [?|e' ? ?|x ex ? ? ?|x e' ? Ht ?];
    simpl; congruence.
Qed.

Lemma factory_calls_app (key : option Z) (l1 l2 : list (event Action Kwargs)) :
  factory_calls key (l1 ++ l2) = factory_calls key l1 + factory_calls key l2.
Proof.
  induction l1 as [|[t| |] l1 IH]; simpl; [done|rewrite IH; lia|done|done].
Qed.

Lemma change_task_other_task t m (key : option Z) :
  key ≠ t →
  factory_calls key (calls (change_task t m).1) = factory_calls key (calls m).
Proof.
  intros Hne. destruct (change_task_cases t m) as [?|e' ? ?|x ex ? ? ?|x e' ? Ht ?];
    simpl; try done; rewrite factory_calls_app; simpl;
    (destruct (decide (t = key)); [congruence|lia]).
Qed.

(** No call asks the factory for a task that is cached already, and the
    cached object stays where it is. *)
Lemma change_task_settled t m (key : option Z) e :
  task_envs (self m) !! key = Some e →
  task_envs (self (change_task t m).1) !! key = Some e ∧
  factory_calls key (calls (change_task t m).1) = factory_calls key (calls m).
Proof.
  intros Hk. split; [by apply change_task_keeps|].
  destruct (decide (key = t)) as [->|Hne].
  - by rewrite (change_task_cached_quiet _ _ _ Hk).
  - by apply change_task_other_task.
Qed.

Lemma reset_None_settled kwargs m (key : option Z) e :
  task_envs (self m) !! key = Some e →
  task_envs (self (reset None kwargs m).1) !! key = Some e ∧
  factory_calls key (calls (reset None kwargs m).1) = factory_calls key (calls m).
Proof.
  intros Hk. destruct (reset_None_frame kwargs m) as ((_ & -> & _) & _ & ->).
  split; [done|]. rewrite factory_calls_app. simpl. lia.
Qed.

Lemma reset_settled new_task kwargs m (key : option Z) e :
  task_envs (self m) !! key = Some e →
  task_envs (self (reset new_task kwargs m).1) !! key = Some e ∧
  factory_calls key (calls (reset new_task kwargs m).1) = factory_calls key (calls m).
Proof.
  intros Hk. destruct new_task as [z|]; [|by apply reset_None_settled].
  destruct (change_task_settled (Some z) m key e Hk) as [Hk1 Hn1].
  destruct (change_task (Some z) m) as [m1 [[]|err]] eqn:Hc; simpl in *.
  - rewrite (reset_Some_returns _ _ _ _ Hc). rewrite <- Hn1.
    by apply reset_None_settled.
  - by rewrite (reset_Some_raises _ _ _ _ _ Hc).
Qed.

Lemma step_settled action m (key : option Z) e :
  task_envs (self m) !! key = Some e →
  task_envs (self (step action m).1) !! key = Some e ∧
  factory_calls key (calls (step action m).1) = factory_calls key (calls m).
Proof.
  intros Hk. destruct (step_frame action m) as ((_ & -> & _) & ->).
  split; [done|]. rewrite factory_calls_app. simpl. lia.
Qed.

Lemma exec_settled (c : call Action Kwargs) m (key : option Z) e :
  task_envs (self m) !! key = Some e →
  task_envs (self (exec c m)) !! key = Some e ∧
  factory_calls key (calls (exec c m)) = factory_calls key (calls m).
Proof.
  destruct c; simpl;
    [apply reset_settled|apply change_task_settled|apply step_settled].
Qed.

Lemma run_settled cs m (key : option Z) e :
  task_envs (self m) !! key = Some e →
  task_envs (self (run cs m)) !! key = Some e ∧
  factory_calls key (calls (run cs m)) = factory_calls key (calls m).
Proof.
  revert m. induction cs as [|c cs IH]; intros m Hk; [done|].
  destruct (exec_settled c m key e Hk) as [Hk1 Hn1].
  destruct (IH (exec c m) Hk1) as [Hk2 Hn2].
  change (run (c :: cs) m) with (run cs (exec c m)). split; congruence.
Qed.

(** *** The active environment is always a known one *)

Lemma known_same_but_done env0 s s' :
  same_but_done s s' → active_known env0 s → active_known env0 s'.
Proof.
  intros (He & Hc & _) [H0|[key Hk]]; [left|right; exists key]; congruence.
Qed.

Lemma change_task_known env0 t m :
  active_known env0 (self m) → active_known env0 (self (change_task t m).1).
Proof.
  intros Hk. destruct (change_task_cases t m) as [?|e' ? Ht|x ex ? ? ?|x e' ? Ht ?];
    simpl; try done.
  - right. by exists t.
  - right. exists t. simpl. apply lookup_insert_eq.
Qed.

Lemma reset_known env0 new_task kwargs m :
  active_known env0 (self m) →
  active_known env0 (self (reset new_task kwargs m).1).
Proof.
  intros Hk.
  assert (Hnone : ∀ m', active_known env0 (self m') →
            active_known env0 (self (reset None kwargs m').1)).
  { intros m' Hk'. eapply known_same_but_done; [|done].
    apply reset_None_frame. }
  destruct new_task as [z|]; [|by apply Hnone].
  pose proof (change_task_known env0 (Some z) m Hk) as Hk1.
  destruct (change_task (Some z) m) as [m1 [[]|err]] eqn:Hc; simpl in *.
  - rewrite (reset_Some_returns _ _ _ _ Hc). by apply Hnone.
  - by rewrite (reset_Some_raises _ _ _ _ _ Hc).
Qed.

Lemma step_known env0 action m :
  active_known env0 (self m) → active_known env0 (self (step action m).1).
Proof.
  intros Hk. eapply known_same_but_done; [|done]. apply step_frame.
Qed.

Lemma run_known env0 cs m :
  active_known env0 (self m) → active_known env0 (self (run cs m)).
Proof.
  revert m. induction cs as [|c cs IH]; intros m Hk; [done|].
  change (run (c :: cs) m) with (run cs (exec c m)). apply IH.
  destruct c; simpl;
    [by apply reset_known|by apply change_task_known|by apply step_known].
Qed.

(** ** The specification, claim by claim *)

(** C1.  While an episode is active ([done] is false), [change_task] fails
    with the state-violation error for every task id, and the failing call
    leaves the whole machine as it was: the active environment and the cache
    are untouched, and no collaborator (the factory in particular) has been
    called. *)
Theorem change_task_mid_episode new_task m :
  done (self m) = false →
  change_task new_task m = (m, Raises (RuntimeError mid_episode)) ∧
  env (self (change_task new_task m).1) = env (self m) ∧
  task_envs (self (change_task new_task m).1) = task_envs (self m) ∧
  calls (change_task new_task m).1 = calls m.
Proof.
  intros Hd. rewrite (change_task_busy new_task m Hd). by repeat split.
Qed.

(** C2.  Cache identity.  Let a request for task [T] be served, in an
    episode-ended state.  It makes active the object that the cache holds
    for [T]: the object that was cached already, or, when there was none,
    the object that the one call of the factory has just returned.  Then
    let the caller do whatever it likes ([cs]) and, in an episode-ended
    state again, request [T] a second time.  The second request is served
    without any call to a collaborator; the active environment is then that
    same object, the one the first request produced, and it is still what
    the cache holds for [T]; and over the whole run, from before the first
    request to after the second, the factory was asked for [T] at most once.
    Nothing is assumed of the factory beyond its having answered the first
    request; a factory that builds a new object at every call is one such. *)
Theorem change_task_twice (T : option Z) m0 m1 cs :
  change_task T m0 = (m1, Returns tt) →
  done (self (run cs m1)) = true →
  task_envs (self m1) !! T = Some (env (self m1)) ∧
  match task_envs (self m0) !! T with
  | Some e => env (self m1) = e ∧ calls m1 = calls m0
  | None => (∃ x, env_fn T (outside m0) = (x, inr (env (self m1)))) ∧
            calls m1 = calls m0 ++ [CallEnvFn T]
  end ∧
  ∃ m3, change_task T (run cs m1) = (m3, Returns tt) ∧
        env (self m3) = env (self m1) ∧
        task_envs (self m3) !! T = Some (env (self m1)) ∧
        task_envs (self m3) = task_envs (self (run cs m1)) ∧
        outside m3 = outside (run cs m1) ∧
        calls m3 = calls (run cs m1) ∧
        factory_calls T (calls m3) ≤ factory_calls T (calls m0) + 1.
Proof.
  intros H1 Hd.
  assert (Hfirst :
    task_envs (self m1) !! T = Some (env (self m1)) ∧
    match task_envs (self m0) !! T with
    | Some e => env (self m1) = e ∧ calls m1 = calls m0
    | None => (∃ x, env_fn T (outside m0) = (x, inr (env (self m1)))) ∧
              calls m1 = calls m0 ++ [CallEnvFn T]
    end ∧
    factory_calls T (calls m1) ≤ factory_calls T (calls m0) + 1).
  { destruct (change_task_cases T m0) as [?|e ? Ht|x ex ? ? ?|x e ? Ht Hf];
      inversion H1; subst; simpl.
    - rewrite Ht. split; [done|]. split; [done|lia].
    - rewrite Ht. split; [apply lookup_insert_eq|]. split.
      + split; [by exists x|done].
      + rewrite factory_calls_app. simpl. destruct (decide (T = T)); [lia|done]. }
  destruct Hfirst as (Hk & Hhow & Hn).
  destruct (run_settled cs m1 T _ Hk) as [Hk2 Hn2].
  split; [done|]. split; [done|].
  eexists. split; [by apply change_task_hit|]. simpl.
  split; [done|]. split; [done|]. repeat split. lia.
Qed.

(** C3.  The active environment is always either a cached object or the
    object given to the constructor: the constructor establishes this, each
    of [change_task], [reset] and [step] preserves it however the call ends,
    and so it holds after any sequence of calls on a new wrapper. *)
Theorem active_env_is_known (env0 : Ref) :
  (∀ space : option Space, active_known env0 (__init__ env0 space)) ∧
  (∀ new_task m, active_known env0 (self m) →
     active_known env0 (self (change_task new_task m).1)) ∧
  (∀ new_task kwargs m, active_known env0 (self m) →
     active_known env0 (self (reset new_task kwargs m).1)) ∧
  (∀ action m, active_known env0 (self m) →
     active_known env0 (self (step action m).1)) ∧
  (∀ x0 (space : option Space) cs,
     active_known env0 (self (run cs (boot x0 env0 space)))).
Proof.
  split; [by left|].
  split; [apply change_task_known|].
  split; [apply reset_known|].
  split; [apply step_known|].
  intros x0 space cs. apply run_known. by left.
Qed.

(** *** No error of the wrapper's own once the episode has ended *)

Lemma change_task_ended t m :
  done (self m) = true →
  (change_task t m).2 = Returns tt ∨
  ∃ x ex, task_envs (self m) !! t = None ∧
          env_fn t (outside m) = (x, inl ex) ∧
          (change_task t m).2 = Raises (Foreign ex).
Proof.
  intros Hd. destruct (change_task_cases t m) as [?|e ? Ht|x ex ? ? ?|x e ? Ht ?];
    [congruence|by left|right; by exists x, ex|by left].
Qed.

Lemma answer_not_own {A} (r : Exn + A) : own_error (answer r) = false.
Proof. by destruct r. Qed.

Lemma reset_None_not_own kwargs m :
  own_error (reset None kwargs m).2 = false.
Proof.
  destruct (env_reset (env (self m)) kwargs (outside m)) as [x [ex|o]] eqn:Hr.
  - by rewrite (reset_None_raises _ _ _ _ Hr).
  - rewrite (reset_None_returns _ _ _ _ Hr). apply answer_not_own.
Qed.

Lemma reset_ended new_task kwargs m :
  done (self m) = true → own_error (reset new_task kwargs m).2 = false.
Proof.
  intros Hd. destruct new_task as [z|]; [|apply reset_None_not_own].
  destruct (change_task_ended (Some z) m Hd) as [Hc|(x & ex & _ & _ & Hc)];
    destruct (change_task (Some z) m) as [m1 r] eqn:Hm; simpl in Hc; subst r.
  - rewrite (reset_Some_returns _ _ _ _ Hm). apply reset_None_not_own.
  - by rewrite (reset_Some_raises _ _ _ _ _ Hm).
Qed.

(** C4.  In the episode-ended state [change_task] raises no error of the
    wrapper's own: it returns, unless the task is not cached and the factory
    raises, and then it is the factory's exception that the caller sees.
    (i) A new wrapper is in that state, before any [reset].  (ii) So is a
    wrapper whose [step] has just returned [done = True], and there
    [reset(new_task=T')] raises no error of the wrapper's own either,
    whatever [T'] is. *)
Theorem change_task_when_ended :
  (∀ new_task m, done (self m) = true →
     own_error (change_task new_task m).2 = false ∧
     ((change_task new_task m).2 = Returns tt ∨
      ∃ x ex, task_envs (self m) !! new_task = None ∧
              env_fn new_task (outside m) = (x, inl ex) ∧
              (change_task new_task m).2 = Raises (Foreign ex))) ∧
  (∀ x0 env0 (space : option Space) new_task,
     done (__init__ env0 space) = true ∧
     own_error (change_task new_task (boot x0 env0 space)).2 = false) ∧
  (∀ action m m1 (o : Obs) (rew : Reward) (info : gmap string InfoVal)
     (T' : Z) kwargs,
     step action m = (m1, Returns (o, rew, true, info)) →
     done (self m1) = true ∧
     own_error (change_task (Some T') m1).2 = false ∧
     own_error (reset (Some T') kwargs m1).2 = false).
Proof.
  assert (Hgen : ∀ t m, done (self m) = true →
            own_error (change_task t m).2 = false).
  { intros t m Hd.
    destruct (change_task_ended t m Hd) as [->|(x & ex & _ & _ & ->)]; done. }
  split; [|split].
  - intros t m Hd. split; [by apply Hgen|by apply change_task_ended].
  - intros x0 env0 space t. split; [done|by apply Hgen].
  - intros action m m1 o rew info T' kwargs Hs.
    assert (Hd : done (self m1) = true).
    { destruct (env_step (env (self m)) action (outside m))
        as [x [ex|[[[obs r] d] i]]] eqn:He.
      - rewrite (step_raises _ _ _ _ He) in Hs. congruence.
      - rewrite (step_returns _ _ _ _ _ _ _ He) in Hs.
        destruct (_task_completion obs r d i); [congruence|].
        destruct (observation obs); [congruence|].
        inversion Hs; subst. done. }
    split; [done|]. split; [by apply Hgen|by apply reset_ended].
Qed.

(** C5.  [reset(new_task, **kwargs)].  When a task is given, [change_task]
    runs first, and if it raises the call ends there: the flag is not
    touched and the environment is not reset.  Otherwise, with [m1] the
    machine after the task change (the machine itself when no task is
    given), the flag is set to "episode active", then [reset] of the
    environment active in [m1] is called with [kwargs] as they are, and
    what it returns goes through [observation] before being returned; the
    flag is set even when the environment's [reset] raises. *)
Theorem reset_in_order new_task kwargs m m1 :
  (∀ (z : Z) (err : exn Exn),
     new_task = Some z → change_task (Some z) m = (m1, Raises err) →
     reset new_task kwargs m = (m1, Raises err)) ∧
  ((new_task = None ∧ m1 = m) ∨
   (∃ z : Z, new_task = Some z ∧ change_task (Some z) m = (m1, Returns tt)) →
   reset new_task kwargs m =
     (MkMachine (env_reset (env (self m1)) kwargs (outside m1)).1
        (calls m1 ++ [CallReset (env (self m1)) kwargs])
        (MkWrapper (env (self m1)) (task_envs (self m1)) (task_space (self m1))
           false),
      match (env_reset (env (self m1)) kwargs (outside m1)).2 with
      | inl ex => Raises (Foreign ex)
      | inr o => answer (observation o)
      end)).
Proof.
  assert (Hnone : ∀ m', reset None kwargs m' =
     (MkMachine (env_reset (env (self m')) kwargs (outside m')).1
        (calls m' ++ [CallReset (env (self m')) kwargs])
        (with_done false (self m')),
      match (env_reset (env (self m')) kwargs (outside m')).2 with
      | inl ex => Raises (Foreign ex)
      | inr o => answer (observation o)
      end)).
  { intros m'.
    destruct (env_reset (env (self m')) kwargs (outside m')) as [x [ex|o]] eqn:Hr.
    - by rewrite (reset_None_raises _ _ _ _ Hr).
    - by rewrite (reset_None_returns _ _ _ _ Hr). }
  split.
  - intros z err -> Hc. by apply reset_Some_raises.
  - intros [[-> ->]|(z & -> & Hc)].
    + apply Hnone.
    + rewrite (reset_Some_returns _ _ _ _ Hc). apply Hnone.
Qed.

(** C6.  [step(action)].  The call goes to the [step] of the active
    environment.  When that returns [(obs, rew, d, info)], the flag becomes
    [d] (the episode is over exactly when [d] is true), the active
    environment and the cache stay as they are, and if the hooks return, the
    caller gets the transformed observation, [rew], [d], and [info] with the
    value of [_task_completion obs rew d info] stored under
    ["task_completion"] and every other key as the environment left it. *)
Theorem step_delegates action m x (obs : Obs) (rew : Reward) (d : bool)
    (info : gmap string InfoVal) :
  env_step (env (self m)) action (outside m) = (x, inr (obs, rew, d, info)) →
  (step action m).1 =
    MkMachine x (calls m ++ [CallStep (env (self m)) action])
      (MkWrapper (env (self m)) (task_envs (self m)) (task_space (self m)) d) ∧
  (done (self (step action m).1) = true ↔ d = true) ∧
  (∀ ex, _task_completion obs rew d info = inl ex →
     (step action m).2 = Raises (Foreign ex)) ∧
  (∀ tc ex, _task_completion obs rew d info = inr tc →
     observation obs = inl ex →
     (step action m).2 = Raises (Foreign ex)) ∧
  (∀ tc o, _task_completion obs rew d info = inr tc →
     observation obs = inr o →
     ∃ info', (step action m).2 = Returns (o, rew, d, info') ∧
              info' = <["task_completion" := tc]> info ∧
              info' !! "task_completion" = Some tc ∧
              ∀ key, key ≠ "task_completion" → info' !! key = info !! key).
Proof.
  intros Hs. rewrite (step_returns _ _ _ _ _ _ _ Hs). simpl.
  split; [done|]. split; [done|]. split; [|split].
  - by intros ex ->.
  - by intros tc ex -> ->.
  - intros tc o -> ->. eexists. split; [done|]. split; [done|].
    split; [apply lookup_insert_eq|].
    intros key Hne. by apply lookup_insert_ne.
Qed.

(** C7.  When the task is not cached and the factory raises, [change_task]
    raises that very exception, and the wrapper is as it was: no entry for
    the task in the cache, the same active environment. *)
Theorem factory_exception_propagates (T : option Z) m x ex :
  done (self m) = true →
  task_envs (self m) !! T = None →
  env_fn T (outside m) = (x, inl ex) →
  (change_task T m).2 = Raises (Foreign ex) ∧
  self (change_task T m).1 = self m ∧
  task_envs (self (change_task T m).1) !! T = None ∧
  env (self (change_task T m).1) = env (self m).
Proof.
  intros Hd Ht Hf. by rewrite (change_task_miss_raises _ _ _ _ Hd Ht Hf).
Qed.

(** C8.  [step] has no guard.  In every state, the episode-ended one
    included, the call is sent to the active environment and raises no
    error of the wrapper's own; when the environment returns, the flag is
    the [done] it returned.  So an environment that answers [done = False]
    to a step taken in the episode-ended state puts the wrapper back in the
    episode-active state, with no [reset] in between. *)
Theorem step_has_no_guard action m :
  calls (step action m).1 = calls m ++ [CallStep (env (self m)) action] ∧
  own_error (step action m).2 = false ∧
  (∀ x (obs : Obs) (rew : Reward) (d : bool) (info : gmap string InfoVal),
     env_step (env (self m)) action (outside m) = (x, inr (obs, rew, d, info)) →
     done (self (step action m).1) = d) ∧
  (∀ x (obs : Obs) (rew : Reward) (info : gmap string InfoVal),
     done (self m) = true →
     env_step (env (self m)) action (outside m) = (x, inr (obs, rew, false, info)) →
     done (self (step action m).1) = false).
Proof.
  split; [apply step_frame|]. split; [|split].
  - destruct (env_step (env (self m)) action (outside m))
      as [x [ex|[[[obs rew] d] info]]] eqn:Hs.
    + by rewrite (step_raises _ _ _ _ Hs).
    + rewrite (step_returns _ _ _ _ _ _ _ Hs). simpl.
      destruct (_task_completion obs rew d info); [done|].
      by destruct (observation obs).
  - intros x obs rew d info Hs. by rewrite (step_returns _ _ _ _ _ _ _ Hs).
  - intros x obs rew info _ Hs. by rewrite (step_returns _ _ _ _ _ _ _ Hs).
Qed.

(** C9.  Frame.  [step], and [reset] without a task, change no field of
    the wrapper but the flag: the cache and the active environment are as
    before.  [reset] with a task changes them only through its call of
    [change_task].  And [change_task] leaves the flag alone and either
    leaves the cache as it is or adds one entry to it, for the requested
    task, which had none. *)
Theorem wrapper_frame action kwargs new_task (z : Z) m :
  same_but_done (self m) (self (step action m).1) ∧
  same_but_done (self m) (self (reset None kwargs m).1) ∧
  same_but_done (self (change_task (Some z) m).1)
    (self (reset (Some z) kwargs m).1) ∧
  done (self (change_task new_task m).1) = done (self m) ∧
  task_space (self (change_task new_task m).1) = task_space (self m) ∧
  (task_envs (self (change_task new_task m).1) = task_envs (self m) ∨
   task_envs (self m) !! new_task = None ∧
   ∃ e, task_envs (self (change_task new_task m).1)
        = <[new_task := e]> (task_envs (self m))) ∧
  size (task_envs (self (change_task new_task m).1))
    ≤ size (task_envs (self m)) + 1.
Proof.
  split; [apply step_frame|]. split; [apply reset_None_frame|]. split.
  { destruct (change_task (Some z) m) as [m1 [[]|err]] eqn:Hc; simpl.
    - rewrite (reset_Some_returns _ _ _ _ Hc). apply reset_None_frame.
    - rewrite (reset_Some_raises _ _ _ _ _ Hc). apply same_but_done_refl. }
  destruct (change_task_cases new_task m) as [?|e ? Ht|x ex ? ? ?|x e ? Ht ?];
    simpl; repeat split; try done; try (by left); try lia.
  - right. split; [done|]. by exists e.
  - rewrite map_size_insert_None; [lia|done].
Qed.

(** C10.  [None] is special to [reset] only.  [reset(new_task=None)] changes
    no task: it asks nothing of the factory, raises no error of the
    wrapper's own even in mid-episode, and leaves the cache and the active
    environment as they are.  [change_task(None)] in the episode-ended
    state takes [None] for a key like any other: when the cache has no
    entry for it, the factory is called with [None], and what it returns is
    cached under [None] and made active. *)
Theorem none_is_a_key_for_change_task :
  (∀ kwargs m,
     calls (reset None kwargs m).1 = calls m ++ [CallReset (env (self m)) kwargs] ∧
     same_but_done (self m) (self (reset None kwargs m).1) ∧
     own_error (reset None kwargs m).2 = false) ∧
  (∀ m x e,
     done (self m) = true →
     task_envs (self m) !! None = None →
     env_fn None (outside m) = (x, inr e) →
     change_task None m =
       (MkMachine x (calls m ++ [CallEnvFn None])
          (MkWrapper e (<[None := e]> (task_envs (self m)))
             (task_space (self m)) true),
        Returns tt)).
Proof.
  split.
  - intros kwargs m. destruct (reset_None_frame kwargs m) as (? & _ & ?).
    split; [done|]. split; [done|]. apply reset_None_not_own.
  - intros m x e Hd Ht Hf. by apply change_task_miss_returns.
Qed.

End Facts.





(** ** More on the methods *)

#[local] Set Warnings "-clear-no-such-hyp".

Section MoreFacts.
Context {Ext Obs Action Reward Kwargs InfoVal Space Exn : Type}.
Context `{!Collaborators Ext Obs Action Reward Kwargs InfoVal Exn}.

Implicit Types (m : machine Ext Action Kwargs Space).
Implicit Types (t new_task : option Z) (e : Ref) (x : Ext) (ex : Exn).
Implicit Types (kwargs : Kwargs) (action : Action).
Implicit Types (c : call Action Kwargs) (cs : list (call Action Kwargs)).

(** *** What [step] did when it returns or raises *)

Lemma step_inv action m m' (r : outcome Exn (Obs * Reward * bool * gmap string InfoVal)) :
  step action m = (m', r) →
  (∃ x ex, env_step (env (self m)) action (outside m) = (x, inl ex) ∧
           outside m' = x ∧ self m' = self m ∧ r = Raises (Foreign ex)) ∨
  (∃ x obs rew d info,
     env_step (env (self m)) action (outside m) = (x, inr (obs, rew, d, info)) ∧
     outside m' = x ∧ self m' = with_done d (self m) ∧
     ((∃ ex, r = Raises (Foreign ex)) ∨
      ∃ o info', r = Returns (o, rew, d, info'))).
Proof.
  intros Hs.
  destruct (env_step (env (self m)) action (outside m))
    as [x [ex|[[[obs rew] d] info]]] eqn:He.
  - rewrite (step_raises _ _ _ _ He) in Hs. inversion Hs; subst.
    left. by exists x, ex.
  - rewrite (step_returns _ _ _ _ _ _ _ He) in Hs. inversion Hs; subst.
    right. exists x, obs, rew, d, info. repeat split.
    destruct (_task_completion obs rew d info) as [ex|tc]; [left; by exists ex|].
    destruct (observation obs) as [ex|o]; [left; by exists ex|].
    right. by eexists _, _.
Qed.

Lemma step_not_own action m : own_error (step action m).2 = false.
Proof.
  destruct (step action m) as [m' r] eqn:Hs.
  destruct (step_inv _ _ _ _ Hs)
    as [(?&?&_&_&_&->)|(?&?&?&?&?&_&_&_&[[? ->]|(?&?&->)])]; done.
Qed.

Lemma reset_Some_busy (z : Z) kwargs m :
  done (self m) = false →
  reset (Some z) kwargs m = (m, Raises (RuntimeError mid_episode)).
Proof.
  intros Hd. apply reset_Some_raises. by apply change_task_busy.
Qed.

(** *** While an episode is active *)

Lemma factory_calls_snoc_reset t (l : list (event Action Kwargs)) e kwargs :
  factory_calls t (l ++ [CallReset e kwargs]) = factory_calls t l.
Proof. rewrite factory_calls_app. simpl. lia. Qed.

Lemma factory_calls_snoc_step t (l : list (event Action Kwargs)) e action :
  factory_calls t (l ++ [CallStep e action]) = factory_calls t l.
Proof. rewrite factory_calls_app. simpl. lia. Qed.

Lemma exec_active c m :
  done (self m) = false →
  env (self (exec c m)) = env (self m) ∧
  task_envs (self (exec c m)) = task_envs (self m) ∧
  ∀ t, factory_calls t (calls (exec c m)) = factory_calls t (calls m).
Proof.
  intros Hd. destruct c as [[z|] kwargs|t|action]; simpl.
  - by rewrite (reset_Some_busy z kwargs m Hd).
  - destruct (reset_None_frame kwargs m) as ((-> & -> & _) & _ & ->).
    repeat split. intros t. apply factory_calls_snoc_reset.
  - by rewrite (change_task_busy t m Hd).
  - destruct (step_frame action m) as ((-> & -> & _) & ->).
    repeat split. intros t. apply factory_calls_snoc_step.
Qed.

(** X1.  The cache only grows: whatever calls are made, and however they
    end, every entry of [task_envs] is still there afterwards, with the same
    object. *)
Theorem cache_only_grows cs m :
  task_envs (self m) ⊆ task_envs (self (run cs m)).
Proof.
  apply map_subseteq_spec. intros key e Hk. by apply (run_settled cs m key e).
Qed.

(** X2.  An active episode pins the environment.  If the episode is active
    before each call of a sequence, the sequence leaves the active
    environment and the cache as they were and never asks the factory for
    anything: a task can only change between episodes. *)
Theorem episode_pins_environment cs m :
  active_before_each cs m = true →
  env (self (run cs m)) = env (self m) ∧
  task_envs (self (run cs m)) = task_envs (self m) ∧
  ∀ t, factory_calls t (calls (run cs m)) = factory_calls t (calls m).
Proof.
  revert m. induction cs as [|c cs IH]; intros m Ha; [done|].
  simpl in Ha. apply andb_true_iff in Ha as [Hd Ha].
  apply negb_true_iff in Hd.
  destruct (exec_active c m Hd) as (He & Hc & Hf).
  destruct (IH (exec c m) Ha) as (He' & Hc' & Hf').
  change (run (c :: cs) m) with (run cs (exec c m)).
  split; [congruence|]. split; [congruence|].
  intros t. by rewrite Hf', Hf.
Qed.

(** X3.  Only a step ends an episode.  If the flag goes from "active" to
    "ended" across a call, the call was a [step] and the environment
    answered [done = True] to it; [reset] and [change_task] never end an
    episode, however they end themselves. *)
Theorem only_step_ends_episode c m :
  done (self m) = false →
  done (self (exec c m)) = true →
  ∃ action x (obs : Obs) (rew : Reward) (info : gmap string InfoVal),
    c = Step action ∧
    env_step (env (self m)) action (outside m) = (x, inr (obs, rew, true, info)).
Proof.
  intros Hd Hd'. destruct c as [[z|] kwargs|t|action]; simpl in Hd'.
  - rewrite (reset_Some_busy z kwargs m Hd) in Hd'. simpl in Hd'. congruence.
  - destruct (reset_None_frame kwargs m) as (_ & Hf & _). congruence.
  - rewrite (change_task_busy t m Hd) in Hd'. simpl in Hd'. congruence.
  - destruct (step action m) as [m' r] eqn:Hs. simpl in Hd'.
    destruct (step_inv _ _ _ _ Hs)
      as [(x&ex&_&_&Hself&_)|(x&obs&rew&d&info&He&_&Hself&_)].
    + rewrite Hself in Hd'. congruence.
    + rewrite Hself in Hd'. simpl in Hd'. subst d.
      by exists action, x, obs, rew, info.
Qed.

(** X4.  [reset] with a task cannot cut an episode short: in mid-episode
    [reset(new_task=T)] raises the error of [change_task] and nothing has
    happened, the environment has not been reset and the flag is as it was. *)
Theorem reset_with_task_mid_episode (z : Z) kwargs m :
  done (self m) = false →
  reset (Some z) kwargs m = (m, Raises (RuntimeError mid_episode)).
Proof. apply reset_Some_busy. Qed.




(** X6.  [change_task] is idempotent: asking again for the task that has
    just been made active changes nothing at all and calls nothing. *)
Theorem change_task_idempotent t m m1 :
  change_task t m = (m1, Returns tt) →
  change_task t m1 = (m1, Returns tt).
Proof.
  intros H1.
  destruct (change_task_cases t m) as [?|e ? Ht|x ex ? ? ?|x e ? Ht ?];
    inversion H1; subst.
  - by rewrite (change_task_hit t _ e).
  - rewrite (change_task_hit t _ e); [done|done|]. simpl. apply lookup_insert_eq.
Qed.

(** X7.  After [change_task(T)] returns, and after [reset(new_task=T)]
    returns, the active environment is the object cached under [T]; after
    the [reset] the episode is active. *)
Theorem active_env_is_cache_entry :
  (∀ t m m1, change_task t m = (m1, Returns tt) →
     task_envs (self m1) !! t = Some (env (self m1))) ∧
  (∀ (z : Z) kwargs m m1 (o : Obs),
     reset (Some z) kwargs m = (m1, Returns o) →
     task_envs (self m1) !! Some z = Some (env (self m1)) ∧
     done (self m1) = false).
Proof.
  assert (Hct : ∀ t m m1, change_task t m = (m1, Returns tt) →
            task_envs (self m1) !! t = Some (env (self m1))).
  { intros t m m1 H1.
    destruct (change_task_cases t m) as [?|e ? Ht|x ex ? ? ?|x e ? Ht ?];
      inversion H1; subst; simpl; [done|apply lookup_insert_eq]. }
  split; [exact Hct|].
  intros z kwargs m m1 o Hr.
  destruct (change_task (Some z) m) as [m0 [[]|err]] eqn:Hc.
  - rewrite (reset_Some_returns _ _ _ _ Hc) in Hr.
    destruct (reset_None_frame kwargs m0) as ((He & Hm & _) & Hd & _).
    rewrite Hr in He, Hm, Hd. simpl in *.
    rewrite He, Hm. split; [by apply (Hct _ m)|done].
  - rewrite (reset_Some_raises _ _ _ _ _ Hc) in Hr. congruence.
Qed.

(** *** The factory and the cache *)

Lemma change_task_built_once (T : option Z) t m :
  (∀ x, ∃ x' e, env_fn T x = (x', inr e)) →
  built_once T m → built_once T (change_task t m).1.
Proof.
  unfold built_once. intros Hfn Hi.
  destruct (change_task_cases t m) as [?|e ? Ht|x ex ? Ht Hf|x e ? Ht Hf];
    simpl; try done.
  - rewrite factory_calls_app. simpl. destruct (decide (t = T)) as [->|Hne]; [|lia].
    destruct (Hfn (outside m)) as (x' & e & He). congruence.
  - rewrite factory_calls_app. simpl. destruct (decide (t = T)) as [->|Hne].
    + rewrite lookup_insert_eq. rewrite Ht in Hi. lia.
    + rewrite lookup_insert_ne; [lia|done].
Qed.

Lemma reset_None_built_once (T : option Z) kwargs m :
  built_once T m → built_once T (reset None kwargs m).1.
Proof.
  unfold built_once. intros Hi.
  destruct (reset_None_frame kwargs m) as ((_ & -> & _) & _ & ->).
  by rewrite factory_calls_snoc_reset.
Qed.

Lemma exec_built_once (T : option Z) c m :
  (∀ x, ∃ x' e, env_fn T x = (x', inr e)) →
  built_once T m → built_once T (exec c m).
Proof.
  intros Hfn Hi. destruct c as [[z|] kwargs|t|action]; simpl.
  - pose proof (change_task_built_once T (Some z) m Hfn Hi) as Hi1.
    destruct (change_task (Some z) m) as [m1 [[]|err]] eqn:Hc; simpl in Hi1.
    + rewrite (reset_Some_returns _ _ _ _ Hc). by apply reset_None_built_once.
    + by rewrite (reset_Some_raises _ _ _ _ _ Hc).
  - by apply reset_None_built_once.
  - by apply change_task_built_once.
  - unfold built_once in *.
    destruct (step_frame action m) as ((_ & -> & _) & ->).
    by rewrite factory_calls_snoc_step.
Qed.

(** X8.  One construction per task.  If the factory never raises for
    [T], then after any sequence of calls on a new wrapper, however the
    calls ended, the factory has been asked for [T] exactly once if [T] is
    in the cache and not at all otherwise. *)
Theorem one_build_per_task (T : option Z) x0 env0 (space : option Space) cs :
  (∀ x, ∃ x' e, env_fn T x = (x', inr e)) →
  factory_calls T (calls (run cs (boot x0 env0 space))) =
    match task_envs (self (run cs (boot x0 env0 space))) !! T with
    | Some _ => 1
    | None => 0
    end.
Proof.
  intros Hfn. change (built_once T (run cs (boot x0 env0 space))).
  assert (Hrun : ∀ m, built_once T m → built_once T (run cs m)).
  { induction cs as [|c cs IH]; intros m Hi; [done|].
    change (run (c :: cs) m) with (run cs (exec c m)).
    apply IH. by apply exec_built_once. }
  apply Hrun. unfold built_once. simpl. by rewrite lookup_empty.
Qed.

Lemma change_task_asked t m :
  dom (task_envs (self (change_task t m).1)) ⊆ dom (task_envs (self m)) ∪ {[ t ]}.
Proof.
  destruct (change_task_cases t m) as [Hd|e Hd Ht|x ex Hd Ht Hf|x e Hd Ht Hf];
    simpl; [set_solver|set_solver|set_solver|].
  rewrite dom_insert. set_solver.
Qed.

Lemma exec_asked c m :
  dom (task_envs (self (exec c m))) ⊆ dom (task_envs (self m)) ∪ asked c ∧
  ∀ t, t ∉ asked c →
       factory_calls t (calls (exec c m)) = factory_calls t (calls m).
Proof.
  destruct c as [[z|] kwargs|t0|action]; simpl.
  - pose proof (change_task_asked (Some z) m) as Hdom.
    pose proof (λ t (H : t ≠ Some z), change_task_other_task (Some z) m t H) as Hn.
    destruct (change_task (Some z) m) as [m1 [[]|err]] eqn:Hc; simpl in *.
    + rewrite (reset_Some_returns _ _ _ _ Hc).
      destruct (reset_None_frame kwargs m1) as ((_ & -> & _) & _ & ->).
      split; [done|]. intros t Ht. rewrite factory_calls_snoc_reset.
      apply Hn. set_solver.
    + rewrite (reset_Some_raises _ _ _ _ _ Hc). simpl.
      split; [done|]. intros t Ht. apply Hn. set_solver.
  - destruct (reset_None_frame kwargs m) as ((_ & -> & _) & _ & ->).
    split; [set_solver|]. intros t _. apply factory_calls_snoc_reset.
  - split; [apply change_task_asked|].
    intros t Ht. apply change_task_other_task. set_solver.
  - destruct (step_frame action m) as ((_ & -> & _) & ->).
    split; [set_solver|]. intros t _. apply factory_calls_snoc_step.
Qed.

(** X9.  Nothing is built unasked.  After any sequence of calls, the keys
    of the cache are keys it had before or tasks named in a [change_task]
    or a [reset]; the factory has not been asked for any other task; and so
    the cache of a new wrapper holds no more objects than there were
    distinct tasks named. *)
Theorem cache_keys_were_requested cs m :
  dom (task_envs (self (run cs m))) ⊆ dom (task_envs (self m)) ∪ requested cs ∧
  (∀ t, t ∉ requested cs →
        factory_calls t (calls (run cs m)) = factory_calls t (calls m)) ∧
  size (task_envs (self (run cs m)))
    ≤ size (task_envs (self m)) + size (requested cs).
Proof.
  assert (Hmain :
    dom (task_envs (self (run cs m))) ⊆ dom (task_envs (self m)) ∪ requested cs ∧
    (∀ t, t ∉ requested cs →
          factory_calls t (calls (run cs m)) = factory_calls t (calls m))).
  { revert m. induction cs as [|c cs IH]; intros m.
    - split; [set_solver|done].
    - change (run (c :: cs) m) with (run cs (exec c m)).
      change (requested (c :: cs)) with (asked c ∪ requested cs).
      destruct (exec_asked c m) as [Hd Hn].
      destruct (IH (exec c m)) as [Hd' Hn'].
      split; [set_solver|].
      intros t Ht. rewrite Hn', Hn; [done|set_solver|set_solver]. }
  destruct Hmain as [Hd Hn]. split; [done|]. split; [done|].
  rewrite <- !size_dom. etrans; [by apply subseteq_size|].
  rewrite size_union_alt. apply Nat.add_le_mono_l, subseteq_size. set_solver.
Qed.

End MoreFacts.

(** ** The self-test *)

Section SelfTestFacts.
Context {Ext Obs Action Reward Kwargs InfoVal Space Exn : Type}.
Context `{!Collaborators Ext Obs Action Reward Kwargs InfoVal Exn}.
Context `{!Driver Ext Action Reward Kwargs Exn}.

Implicit Types (m : machine Ext Action Kwargs Space).
Implicit Types (t task : option Z) (e : Ref) (x : Ext) (ex : Exn).
Implicit Types (tasks : list (option Z)) (fuel : nat) (ep_rew : Reward).

Lemma sample_action_inv m m1 (r : outcome Exn Action) :
  sample_action m = (m1, r) →
  self m1 = self m ∧ calls m1 = calls m ∧
  outside m1 = (sample (env (self m)) (outside m)).1 ∧ own_error r = false.
Proof.
  unfold sample_action. destruct (sample (env (self m)) (outside m)) as [x a].
  intros [= <- <-]. simpl. repeat split. by destruct a.
Qed.

Lemma factory_calls_steps t (l : list (event Action Kwargs)) e (acts : list Action) :
  factory_calls t (l ++ (CallStep e <$> acts)) = factory_calls t l.
Proof.
  rewrite factory_calls_app.
  assert (factory_calls t (CallStep (Kwargs := Kwargs) e <$> acts) = 0) as ->; [|lia].
  by induction acts.
Qed.

(** What the loop has done when it stops. *)
Lemma while_shape fuel : ∀ (finished : bool) ep_rew m m' (out : outcome Exn Reward),
  while_not_done fuel finished ep_rew m = Some (m', out) →
  same_but_done (self m) (self m') ∧
  own_error out = false ∧
  (finished = true → m' = m) ∧
  (finished = false → ∀ r, out = Returns r → done (self m') = true) ∧
  ∃ acts, calls m' = calls m ++ (CallStep (env (self m)) <$> acts) ∧
          (finished = false → ∀ r, out = Returns r → acts ≠ []).
Proof.
  induction fuel as [|fuel IH]; intros finished ep_rew m m' out Hw;
    destruct finished; simpl in Hw; try discriminate.
  - injection Hw as <- <-. split; [apply same_but_done_refl|].
    repeat split; try done. exists []. by rewrite app_nil_r.
  - injection Hw as <- <-. split; [apply same_but_done_refl|].
    repeat split; try done. exists []. by rewrite app_nil_r.
  - destruct (sample_action m) as [m1 [action|err]] eqn:Hsa;
      destruct (sample_action_inv _ _ _ Hsa) as (Hs1 & Hc1 & _ & Ho1).
    + destruct (step_frame action m1) as [Hf Hc].
      pose proof (step_not_own action m1) as Hno.
      destruct (step action m1) as [m2 [[[[o rew] d] info]|err]] eqn:Hst;
        simpl in Hf, Hc, Hno; rewrite Hs1 in Hf, Hc; rewrite Hc1 in Hc.
      * destruct (IH _ _ _ _ _ Hw) as (Hf' & Ho & Hfin & Hd & acts & Hc' & _).
        assert (Hd2 : done (self m2) = d).
        { destruct (step_inv _ _ _ _ Hst)
            as [(?&?&_&_&_&?)|(?&?&?&d'&?&_&_&Hself&[[? ?]|(?&?&Hr)])];
            try discriminate.
          injection Hr as -> -> -> ->. by rewrite Hself. }
        split; [by eapply same_but_done_trans|]. split; [done|].
        split; [done|]. split.
        { intros _ r Hr. destruct d; [by rewrite (Hfin eq_refl)|by eapply Hd]. }
        exists (action :: acts). split; [|done].
        rewrite Hc', Hc. destruct Hf as (-> & _). by rewrite <- app_assoc.
      * injection Hw as <- <-. split; [done|]. split; [done|].
        repeat split; try done. exists [action]. by split.
    + injection Hw as <- <-. rewrite Hs1, Hc1.
      split; [apply same_but_done_refl|]. repeat split; try done.
      exists []. split; [by rewrite app_nil_r|done].
Qed.

(** More fuel does not change what the loop has computed. *)
Lemma while_more_fuel fuel : ∀ fuel' (finished : bool) ep_rew m r,
  while_not_done fuel finished ep_rew m = Some r → fuel ≤ fuel' →
  while_not_done fuel' finished ep_rew m = Some r.
Proof.
  induction fuel as [|fuel IH]; intros fuel' finished ep_rew m r Hw Hle;
    destruct finished; simpl in Hw; try discriminate.
  - by destruct fuel'.
  - by destruct fuel'.
  - destruct fuel' as [|fuel']; [lia|]. simpl.
    destruct (sample_action m) as [m1 [action|err]]; [|done].
    destruct (step action m1) as [m2 [[[[o rew] d] info]|err]]; [|done].
    apply IH; [done|lia].
Qed.

(** The loop ends when every step that does not finish the episode brings
    its end nearer. *)
Lemma while_terminates (μ : Ext → nat) :
  (∀ e x, μ (sample e x).1 ≤ μ x) →
  (∀ e (a : Action) x x' (obs : Obs) (rew : Reward) (info : gmap string InfoVal),
     env_step e a x = (x', inr (obs, rew, false, info)) → μ x' < μ x) →
  ∀ fuel (finished : bool) ep_rew m,
    μ (outside m) < fuel → is_Some (while_not_done fuel finished ep_rew m).
Proof.
  intros Hsample Hstep.
  induction fuel as [|fuel IH]; intros finished ep_rew m Hlt;
    destruct finished; simpl; try done; [lia|].
  destruct (sample_action m) as [m1 [action|err]] eqn:Hsa; [|done].
  destruct (sample_action_inv _ _ _ Hsa) as (Hs1 & _ & Hx1 & _).
  destruct (step action m1) as [m2 [[[[o rew] d] info]|err]] eqn:Hst; [|done].
  destruct d; [by destruct fuel|].
  apply IH.
  destruct (step_inv _ _ _ _ Hst)
    as [(?&?&_&_&_&?)|(x&obs&rew'&d'&info0&He&Hx2&_&[[? ?]|(?&?&Hr)])];
    try discriminate.
  injection Hr as _ _ <- _.
  apply Hstep in He. pose proof (Hsample (env (self m)) (outside m)).
  rewrite Hx2. rewrite Hx1 in He. lia.
Qed.

(** *** One episode *)

Lemma run_episode_inv fuel task (verbose : bool) m m'
    (out : outcome Exn (option (string * Reward))) :
  run_episode fuel task verbose m = Some (m', out) →
  (∃ err, reset task no_kwargs m = (m', Raises err) ∧ out = Raises err) ∨
  (∃ m1 (o : Obs) (r : outcome Exn Reward),
     reset task no_kwargs m = (m1, Returns o) ∧
     while_not_done fuel false no_reward m1 = Some (m', r) ∧
     out = match r with
           | Returns ep_rew =>
               Returns (if verbose
                        then Some (class_name (env (self m1)) (outside m1), ep_rew)
                        else None)
           | Raises err => Raises err
           end).
Proof.
  unfold run_episode. intros Hr.
  destruct (reset task no_kwargs m) as [m1 [o|err]].
  - destruct (while_not_done fuel false no_reward m1) as [[m2 [ep_rew|err]]|]
      eqn:Hw; [| |done]; injection Hr as <- <-; right; by eexists _, _, _.
  - injection Hr as <- <-. left. by exists err.
Qed.

(** X10.  An episode run to its end.  When [run_episode] returns, the
    wrapper is back in the episode-ended state; since its [reset] nothing
    but the flag has changed in the wrapper; and what it has called after
    that [reset] is [step], at least once, always on the one environment
    that is active at the end.  With [verbose=0] nothing is printed. *)
Theorem run_episode_ends_episode fuel task (verbose : bool) m m'
    (printed : option (string * Reward)) :
  run_episode fuel task verbose m = Some (m', Returns printed) →
  done (self m') = true ∧
  same_but_done (self (reset task no_kwargs m).1) (self m') ∧
  (∃ acts : list Action,
     acts ≠ [] ∧
     calls m' = calls (reset task no_kwargs m).1
                ++ (CallStep (env (self m')) <$> acts)) ∧
  (verbose = false → printed = None).
Proof.
  intros Hr.
  destruct (run_episode_inv _ _ _ _ _ _ Hr)
    as [(err & _ & ?)|(m1 & o & r & Hreset & Hw & Hout)]; [done|].
  rewrite Hreset. simpl. destruct r as [ep_rew|err]; [|done].
  destruct (while_shape _ _ _ _ _ _ Hw) as (Hf & _ & _ & Hd & acts & Hc & Hne).
  split; [by eapply Hd|]. split; [done|]. split.
  - exists acts. split; [by eapply Hne|]. destruct Hf as (-> & _). done.
  - intros ->. by injection Hout as ->.
Qed.

(** X11.  An episode ends.  Take a measure of the outside world that
    sampling an action does not raise, that every step answered
    [done = False] lowers, and that is at most [N] after an environment's
    reset (an episode of at most [N] steps, say).  Then [run_episode] comes
    to an end within [N + 1] rounds of its loop, and what it has done does
    not depend on how many more rounds it was allowed. *)
Theorem run_episode_terminates (μ : Ext → nat) (N : nat) fuel task
    (verbose : bool) m :
  (∀ e x, μ (sample e x).1 ≤ μ x) →
  (∀ e (a : Action) x x' (obs : Obs) (rew : Reward) (info : gmap string InfoVal),
     env_step e a x = (x', inr (obs, rew, false, info)) → μ x' < μ x) →
  (∀ e (kwargs : Kwargs) x, μ (env_reset e kwargs x).1 ≤ N) →
  N < fuel →
  is_Some (run_episode fuel task verbose m) ∧
  ∀ fuel', N < fuel' →
    run_episode fuel' task verbose m = run_episode fuel task verbose m.
Proof.
  intros Hsample Hstep Hreset Hfuel.
  assert (Hrun : ∀ f, N < f →
    run_episode f task verbose m = run_episode (S N) task verbose m ∧
    is_Some (run_episode (S N) task verbose m)).
  { intros f Hf. unfold run_episode.
    destruct (reset task no_kwargs m) as [m1 [o|err]] eqn:Hr; [|done].
    assert (Hμ : μ (outside m1) ≤ N).
    { destruct task as [z|].
      - destruct (change_task (Some z) m) as [m0 [[]|err]] eqn:Hc.
        + rewrite (reset_Some_returns _ _ _ _ Hc) in Hr.
          destruct (env_reset (env (self m0)) no_kwargs (outside m0))
            as [x [ex|o']] eqn:He.
          * rewrite (reset_None_raises _ _ _ _ He) in Hr. congruence.
          * rewrite (reset_None_returns _ _ _ _ He) in Hr.
            injection Hr as <- _. simpl.
            specialize (Hreset (env (self m0)) no_kwargs (outside m0)).
            by rewrite He in Hreset.
        + rewrite (reset_Some_raises _ _ _ _ _ Hc) in Hr. congruence.
      - destruct (env_reset (env (self m)) no_kwargs (outside m))
          as [x [ex|o']] eqn:He.
        + rewrite (reset_None_raises _ _ _ _ He) in Hr. congruence.
        + rewrite (reset_None_returns _ _ _ _ He) in Hr.
          injection Hr as <- _. simpl.
          specialize (Hreset (env (self m)) no_kwargs (outside m)).
          by rewrite He in Hreset. }
    destruct (while_terminates μ Hsample Hstep (S N) false no_reward m1)
      as [r Hw]; [lia|].
    rewrite Hw. rewrite (while_more_fuel _ f _ _ _ _ Hw); [|lia].
    split; [done|]. by destruct r as [m2 [ep_rew|err]]. }
  destruct (Hrun fuel Hfuel) as [E1 Hsome]. split; [by rewrite E1|].
  intros fuel' Hfuel'. destruct (Hrun fuel' Hfuel') as [E2 _]. congruence.
Qed.

(** *** Episode after episode *)

Lemma run_episode_ended fuel task (verbose : bool) m m'
    (out : outcome Exn (option (string * Reward))) :
  done (self m) = true →
  run_episode fuel task verbose m = Some (m', out) →
  own_error out = false ∧ (∀ p, out = Returns p → done (self m') = true).
Proof.
  intros Hd Hr.
  destruct (run_episode_inv _ _ _ _ _ _ Hr)
    as [(err & Hreset & ->)|(m1 & o & r & Hreset & Hw & ->)].
  - pose proof (reset_ended task no_kwargs m Hd) as Hno.
    rewrite Hreset in Hno. done.
  - destruct (while_shape _ _ _ _ _ _ Hw) as (_ & Ho & _ & Hdone & _).
    destruct r as [ep_rew|err]; [|done]. split; [done|].
    intros p _. by eapply Hdone.
Qed.

(** The loop ends when every step of the active environment that does
    not finish the episode brings the end of that environment's episode
    nearer. *)
Lemma while_terminates_per_env (μ : Ref → Ext → nat) :
  (∀ e x, μ e (sample e x).1 ≤ μ e x) →
  (∀ e (a : Action) x x' (obs : Obs) (rew : Reward) (info : gmap string InfoVal),
     env_step e a x = (x', inr (obs, rew, false, info)) → μ e x' < μ e x) →
  ∀ fuel (finished : bool) ep_rew m,
    μ (env (self m)) (outside m) < fuel →
    is_Some (while_not_done fuel finished ep_rew m).
Proof.
  intros Hsample Hstep.
  induction fuel as [|fuel IH]; intros finished ep_rew m Hlt;
    destruct finished; simpl; try done; [lia|].
  destruct (sample_action m) as [m1 [action|err]] eqn:Hsa; [|done].
  destruct (sample_action_inv _ _ _ Hsa) as (Hs1 & _ & Hx1 & _).
  destruct (step action m1) as [m2 [[[[o rew] d] info]|err]] eqn:Hst; [|done].
  destruct d; [by destruct fuel|].
  apply IH.
  destruct (step_inv _ _ _ _ Hst)
    as [(?&?&_&_&_&?)|(x&obs&rew'&d'&info0&He&Hx2&Hs2&[[? ?]|(?&?&Hr)])];
    try discriminate.
  injection Hr as _ _ <- _.
  apply Hstep in He. pose proof (Hsample (env (self m)) (outside m)).
  rewrite Hs2, Hx2. simpl. rewrite Hs1, Hx1 in He. rewrite Hs1. lia.
Qed.

Lemma reset_returns_outside task (kwargs : Kwargs) m m1 (o : Obs) :
  reset task kwargs m = (m1, Returns o) →
  ∃ x0, outside m1 = (env_reset (env (self m1)) kwargs x0).1.
Proof.
  assert (Hnone : ∀ m0, reset None kwargs m0 = (m1, Returns o) →
            ∃ x0, outside m1 = (env_reset (env (self m1)) kwargs x0).1).
  { intros m0 Hr.
    destruct (env_reset (env (self m0)) kwargs (outside m0))
      as [x [ex|o']] eqn:He.
    - rewrite (reset_None_raises _ _ _ _ He) in Hr. congruence.
    - rewrite (reset_None_returns _ _ _ _ He) in Hr.
      injection Hr as <- _. simpl. exists (outside m0). by rewrite He. }
  intros Hr. destruct task as [z|]; [|by apply (Hnone m)].
  destruct (change_task (Some z) m) as [m0 [[]|err]] eqn:Hc.
  - rewrite (reset_Some_returns _ _ _ _ Hc) in Hr. by apply (Hnone m0).
  - rewrite (reset_Some_raises _ _ _ _ _ Hc) in Hr. congruence.
Qed.

Lemma run_episode_terminates_per_env (μ : Ref → Ext → nat) (N : nat) fuel task
    (verbose : bool) m :
  (∀ e x, μ e (sample e x).1 ≤ μ e x) →
  (∀ e (a : Action) x x' (obs : Obs) (rew : Reward) (info : gmap string InfoVal),
     env_step e a x = (x', inr (obs, rew, false, info)) → μ e x' < μ e x) →
  (∀ e (kwargs : Kwargs) x, μ e (env_reset e kwargs x).1 ≤ N) →
  N < fuel →
  is_Some (run_episode fuel task verbose m).
Proof.
  intros Hsample Hstep Hreset Hfuel. unfold run_episode.
  destruct (reset task no_kwargs m) as [m1 [o|err]] eqn:Hr; [|done].
  destruct (reset_returns_outside _ _ _ _ _ Hr) as [x0 Hx].
  pose proof (Hreset (env (self m1)) no_kwargs x0) as Hμ. rewrite <- Hx in Hμ.
  destruct (while_terminates_per_env μ Hsample Hstep fuel false no_reward m1)
    as [[m2 [ep_rew|err]] ->]; [lia|done|done].
Qed.

(** X12.  The self-test never meets the guard.  Give every environment
    object [e] a measure [μ e] of the outside world, of its own, such that
    sampling an action for [e] does not raise it, every step of [e]
    answered [done = False] lowers it, and it is at most [N] after a reset
    of [e]; nothing is asked of what a call on [e] does to the measures of
    the other objects.  Then a loop of [run_episode], whatever the tasks,
    started in the episode-ended state, as a new wrapper is, and allowed
    [N + 1] rounds or more for each episode, comes to an end: either every
    episode was run to its end and the wrapper is in the episode-ended
    state, or a collaborator raised; the error of [change_task] is never
    raised. *)
Theorem self_test_never_trips_guard (μ : Ref → Ext → nat) (N : nat) fuel tasks m :
  (∀ e x, μ e (sample e x).1 ≤ μ e x) →
  (∀ e (a : Action) x x' (obs : Obs) (rew : Reward) (info : gmap string InfoVal),
     env_step e a x = (x', inr (obs, rew, false, info)) → μ e x' < μ e x) →
  (∀ e (kwargs : Kwargs) x, μ e (env_reset e kwargs x).1 ≤ N) →
  N < fuel →
  done (self m) = true →
  ∃ m' out,
    run_episodes fuel tasks m = Some (m', out) ∧
    own_error out = false ∧
    (out = Returns tt → done (self m') = true).
Proof.
  intros Hsample Hstep Hreset Hfuel. revert m.
  induction tasks as [|task tasks IH]; intros m Hd.
  - by exists m, (Returns tt).
  - simpl.
    destruct (run_episode_terminates_per_env μ N fuel task false m
                Hsample Hstep Hreset Hfuel) as [[m1 out1] Hr].
    rewrite Hr. destruct (run_episode_ended _ _ _ _ _ _ Hd Hr) as [Hno Hd1].
    destruct out1 as [p|err].
    + apply IH. by eapply Hd1.
    + by exists m1, (Raises err).
Qed.

(** *** What the loops build *)

Lemma run_episode_frame fuel task (verbose : bool) m m'
    (out : outcome Exn (option (string * Reward))) :
  run_episode fuel task verbose m = Some (m', out) →
  same_but_done (self (reset task no_kwargs m).1) (self m') ∧
  ∀ t, factory_calls t (calls m') = factory_calls t (calls (reset task no_kwargs m).1).
Proof.
  intros Hr.
  destruct (run_episode_inv _ _ _ _ _ _ Hr)
    as [(err & Hreset & _)|(m1 & o & r & Hreset & Hw & _)]; rewrite Hreset; simpl.
  - split; [apply same_but_done_refl|done].
  - destruct (while_shape _ _ _ _ _ _ Hw) as (Hf & _ & _ & _ & acts & -> & _).
    split; [done|]. intros t. apply factory_calls_steps.
Qed.

(** X13.  The loop on one task builds nothing.  A loop of [run_episode]
    that names no task, as the first loop of the self-test, never calls the
    factory and leaves the cache and the active environment as they are:
    all its episodes run in the environment that was active before. *)
Theorem same_task_loop_builds_nothing (n : nat) fuel m m' (out : outcome Exn unit) :
  run_episodes fuel (replicate n None) m = Some (m', out) →
  env (self m') = env (self m) ∧
  task_envs (self m') = task_envs (self m) ∧
  ∀ t, factory_calls t (calls m') = factory_calls t (calls m).
Proof.
  revert m. induction n as [|n IH]; intros m Hr; simpl in Hr.
  - by injection Hr as <- _.
  - destruct (run_episode fuel None false m) as [[m1 out1]|] eqn:He; [|done].
    destruct (run_episode_frame _ _ _ _ _ _ He) as ((E1 & C1 & _) & F1).
    destruct (reset_None_frame no_kwargs m) as ((E0 & C0 & _) & _ & L0).
    assert (Hone : env (self m1) = env (self m) ∧
                   task_envs (self m1) = task_envs (self m) ∧
                   ∀ t, factory_calls t (calls m1) = factory_calls t (calls m)).
    { split; [congruence|]. split; [congruence|].
      intros t. rewrite F1, L0. apply factory_calls_snoc_reset. }
    destruct Hone as (E & C & F). destruct out1 as [p|err].
    + destruct (IH m1 Hr) as (E' & C' & F').
      split; [congruence|]. split; [congruence|]. intros t. by rewrite F', F.
    + by injection Hr as <- _.
Qed.

Lemma run_episode_dom fuel task (verbose : bool) m m'
    (out : outcome Exn (option (string * Reward))) :
  run_episode fuel task verbose m = Some (m', out) →
  dom (task_envs (self m')) ⊆ dom (task_envs (self m)) ∪ ({[ task ]} ∖ {[ None ]}).
Proof.
  intros Hr. destruct (run_episode_frame _ _ _ _ _ _ Hr) as ((_ & -> & _) & _).
  destruct (exec_asked (Reset task no_kwargs) m) as [Hd _]. simpl in Hd.
  destruct task as [z|]; set_solver.
Qed.

(** X14.  The loop on changing tasks builds one environment per task.
    After a loop of [run_episode] over [tasks], the keys that the cache has
    gained are tasks of the loop, and never [None]; so if the wrapper
    started with an empty cache and every task was drawn from
    [0, ..., k - 1], as from [Discrete(k)] in the self-test, the cache holds
    at most [k] environments however long the loop was. *)
Theorem swapping_loop_cache_bound fuel tasks m m' (out : outcome Exn unit) :
  run_episodes fuel tasks m = Some (m', out) →
  dom (task_envs (self m'))
    ⊆ dom (task_envs (self m)) ∪ (list_to_set tasks ∖ {[ None ]}) ∧
  ∀ k : nat,
    task_envs (self m) = ∅ →
    (∀ t, t ∈ tasks → ∃ z : Z, t = Some z ∧ (0 ≤ z < Z.of_nat k)%Z) →
    size (task_envs (self m')) ≤ k.
Proof.
  intros Hr.
  assert (Hdom : dom (task_envs (self m'))
            ⊆ dom (task_envs (self m)) ∪ (list_to_set tasks ∖ {[ None ]})).
  { revert m Hr. induction tasks as [|task tasks IH]; intros m Hr; simpl in Hr.
    - injection Hr as <- _. set_solver.
    - destruct (run_episode fuel task false m) as [[m1 out1]|] eqn:He; [|done].
      pose proof (run_episode_dom _ _ _ _ _ _ He) as H1.
      destruct out1 as [p|err].
      + pose proof (IH m1 Hr) as H2. set_solver.
      + injection Hr as <- _. set_solver. }
  split; [done|]. intros k Hempty Hk.
  rewrite Hempty, dom_empty_L in Hdom.
  rewrite <- size_dom.
  assert (Hsub : dom (task_envs (self m'))
            ⊆ list_to_set ((λ i : nat, Some (Z.of_nat i)) <$> seq 0 k)).
  { intros t Ht. apply Hdom in Ht.
    assert (Hin : t ∈ tasks) by set_solver.
    destruct (Hk t Hin) as (z & -> & Hz).
    apply elem_of_list_to_set, list_elem_of_fmap.
    exists (Z.to_nat z). split; [f_equal; lia|].
    apply elem_of_seq. lia. }
  etrans; [by apply subseteq_size|].
  rewrite size_list_to_set.
  - by rewrite length_fmap, length_seq.
  - apply NoDup_fmap_2; [|apply NoDup_seq].
    intros i j [= Hij]. lia.
Qed.

End SelfTestFacts.

(** *** [create_env] *)

Lemma py_getitem_in_range {A} (l : list A) (i : Z) :
  (- Z.of_nat (length l) ≤ i < Z.of_nat (length l))%Z →
  py_getitem l i = l !! Z.to_nat (i mod Z.of_nat (length l)) ∧
  is_Some (py_getitem l i).
Proof.
  intros Hi. unfold py_getitem.
  assert (Hlen : (0 < Z.of_nat (length l))%Z) by lia.
  destruct (Z.leb_spec 0 i) as [H0|H0].
  - rewrite Z.mod_small by lia. split; [done|].
    apply lookup_lt_is_Some. lia.
  - destruct (Z.leb_spec (- Z.of_nat (length l)) i) as [H1|H1]; [|lia].
    assert ((i mod Z.of_nat (length l))%Z = (Z.of_nat (length l) + i)%Z) as ->.
    { symmetry. apply (Z.mod_unique_pos _ _ (-1)); lia. }
    split; [done|]. apply lookup_lt_is_Some. lia.
Qed.

Lemma py_getitem_out_of_range {A} (l : list A) (i : Z) :
  ¬ (- Z.of_nat (length l) ≤ i < Z.of_nat (length l))%Z →
  py_getitem l i = None.
Proof.
  intros Hi. unfold py_getitem.
  destruct (Z.leb_spec 0 i) as [H0|H0].
  - apply lookup_ge_None. lia.
  - destruct (Z.leb_spec (- Z.of_nat (length l)) i) as [H1|H1]; [lia|done].
Qed.

(** X15.  The tasks that [create_env] knows.  For [-7 <= task < 7] it
    builds the class at position [task mod 7] of the list, so that [-1]
    names the last class as [6] does; for any other integer it raises the
    [IndexError] of the list, and for [None] its [TypeError], without
    building anything. *)
Theorem create_env_range {Ext Exn : Type}
    (construct : string → Ext → Ext * (Exn + Ref))
    (index_error type_error : Exn) (i : Z) (x : Ext) :
  ((-7 ≤ i < 7)%Z →
   ∃ task_class, task_classes !! Z.to_nat (i mod 7) = Some task_class ∧
     create_env construct index_error type_error (Some i) x
       = construct task_class x) ∧
  (¬ (-7 ≤ i < 7)%Z →
   create_env construct index_error type_error (Some i) x
     = (x, inl index_error)) ∧
  create_env construct index_error type_error None x = (x, inl type_error).
Proof.
  split; [|split; [|done]].
  - intros Hi. destruct (py_getitem_in_range task_classes i Hi) as [E [c Hc]].
    exists c. unfold create_env. rewrite Hc. split; [|done].
    rewrite <- Hc, E. done.
  - intros Hi. unfold create_env.
    by rewrite (py_getitem_out_of_range task_classes i Hi).
Qed.

(** ** The wrapper at work in the small world *)

Example busy_value :
  Demo.busy =
    MkMachine 1 [CallEnvFn (Some 0%Z); CallReset 2%positive [];
                 CallStep 2%positive false]
      (MkWrapper 2%positive {[ Some 0%Z := 2%positive ]} None false).
Proof. vm_compute. reflexivity. Qed.

(** Task 0, then task 1, then task 0 again, each episode run to its end:
    the third episode runs in the object built for the first, and the
    factory has been called twice in all. *)
Example three_episodes :
  let m := run [Reset (Some 0%Z) []; Step true] Demo.rested in
  env (self m) = 2%positive ∧
  task_envs (self m) = {[ Some 0%Z := 2%positive; Some 1%Z := 3%positive ]} ∧
  factory_calls (Some 0%Z) (calls m) = 1 ∧
  factory_calls (Some 1%Z) (calls m) = 1 ∧
  outside m = 2.
Proof. vm_compute. by repeat split. Qed.

Lemma change_task_mid_episode_witness :
  done (self Demo.busy) = false ∧
  change_task (Some 1%Z) Demo.busy =
    (Demo.busy, Raises (RuntimeError mid_episode)).
Proof.
  split; [reflexivity|].
  apply (change_task_mid_episode (Some 1%Z) Demo.busy). reflexivity.
Defined.

Lemma change_task_twice_witness :
  env_fn (Some 0%Z) (outside Demo.fresh) = (1, inr 2%positive) ∧
  task_envs (self (change_task (Some 0%Z) Demo.fresh).1) !! Some 0%Z
    = Some 2%positive ∧
  env (self (change_task (Some 0%Z) Demo.fresh).1) = 2%positive ∧
  env (self (run [Reset None []; Step true; Reset (Some 1%Z) []; Step true]
               (change_task (Some 0%Z) Demo.fresh).1)) = 3%positive ∧
  ∃ m3,
    change_task (Some 0%Z)
      (run [Reset None []; Step true; Reset (Some 1%Z) []; Step true]
         (change_task (Some 0%Z) Demo.fresh).1) = (m3, Returns tt) ∧
    env (self m3) = 2%positive ∧
    task_envs (self m3) !! Some 0%Z = Some 2%positive ∧
    calls m3 =
      calls (run [Reset None []; Step true; Reset (Some 1%Z) []; Step true]
               (change_task (Some 0%Z) Demo.fresh).1) ∧
    factory_calls (Some 0%Z) (calls m3)
      ≤ factory_calls (Some 0%Z) (calls Demo.fresh) + 1.
Proof.
  assert (H1 : change_task (Some 0%Z) Demo.fresh
               = ((change_task (Some 0%Z) Demo.fresh).1, Returns tt))
    by (vm_compute; reflexivity).
  assert (Hd : done (self (run [Reset None []; Step true; Reset (Some 1%Z) [];
                                Step true]
                             (change_task (Some 0%Z) Demo.fresh).1)) = true)
    by (vm_compute; reflexivity).
  assert (He : env (self (change_task (Some 0%Z) Demo.fresh).1) = 2%positive)
    by (vm_compute; reflexivity).
  destruct (change_task_twice (Some 0%Z) Demo.fresh _ _ H1 Hd)
    as (Hk & _ & m3 & H3 & He3 & Hk3 & _ & _ & Hc3 & Hn3).
  split; [reflexivity|]. split; [by rewrite <- He|]. split; [exact He|].
  split; [vm_compute; reflexivity|].
  exists m3. split; [exact H3|]. split; [by rewrite He3|].
  split; [exact (eq_trans Hk3 (f_equal Some He))|].
  split; [exact Hc3|exact Hn3].
Defined.

Lemma active_env_is_known_witness :
  active_known 1%positive (self Demo.busy) ∧
  active_known 1%positive (self (step true Demo.busy).1) ∧
  active_known 1%positive (self Demo.rested).
Proof.
  pose proof (active_env_is_known (Space := unit) 1%positive)
    as (_ & _ & _ & Hstep & Hrun).
  assert (Hb : active_known 1%positive (self Demo.busy)) by apply Hrun.
  split; [exact Hb|]. split; [exact (Hstep true Demo.busy Hb)|apply Hrun].
Defined.

Lemma change_task_when_ended_witness :
  step true Demo.busy =
    ((step true Demo.busy).1,
     Returns (1, 1%Z, true, {[ "task_completion" := 1%Z ]})) ∧
  own_error (reset (Some 5%Z) [] (step true Demo.busy).1).2 = false.
Proof.
  assert (Hs : step true Demo.busy =
    ((step true Demo.busy).1,
     Returns (1, 1%Z, true, {[ "task_completion" := 1%Z ]})))
    by (vm_compute; reflexivity).
  split; [exact Hs|].
  apply (proj2 (proj2 change_task_when_ended) _ _ _ _ _ _ 5%Z [] Hs).
Defined.

Lemma reset_in_order_witness :
  reset (Some 0%Z) [("seed", 7%Z)] Demo.fresh =
    (MkMachine 1 [CallEnvFn (Some 0%Z); CallReset 2%positive [("seed", 7%Z)]]
       (MkWrapper 2%positive {[ Some 0%Z := 2%positive ]} None false),
     Returns 0).
Proof.
  etrans.
  - apply (proj2 (reset_in_order (Some 0%Z) [("seed", 7%Z)] Demo.fresh
                    (change_task (Some 0%Z) Demo.fresh).1)).
    right. exists 0%Z. split; [reflexivity|vm_compute; reflexivity].
  - vm_compute. reflexivity.
Defined.

Lemma step_delegates_witness :
  env_step 2%positive true 1 = (1, inr (1, 1%Z, true, ∅)) ∧
  (step true Demo.busy).1 =
    MkMachine 1
      [CallEnvFn (Some 0%Z); CallReset 2%positive []; CallStep 2%positive false;
       CallStep 2%positive true]
      (MkWrapper 2%positive {[ Some 0%Z := 2%positive ]} None true).
Proof.
  split; [reflexivity|]. etrans.
  - apply (step_delegates true Demo.busy 1 1 1%Z true ∅). vm_compute. reflexivity.
  - vm_compute. reflexivity.
Defined.

Lemma factory_exception_propagates_witness :
  env_fn (Some (-1)%Z) (outside Demo.fresh) = (0, inl "IndexError") ∧
  (change_task (Some (-1)%Z) Demo.fresh).2 = Raises (Foreign "IndexError") ∧
  self (change_task (Some (-1)%Z) Demo.fresh).1 = self Demo.fresh.
Proof.
  split; [reflexivity|].
  pose proof (factory_exception_propagates (Some (-1)%Z) Demo.fresh 0
                "IndexError" eq_refl eq_refl eq_refl) as (H1 & H2 & _).
  exact (conj H1 H2).
Defined.

Lemma step_has_no_guard_witness :
  done (self Demo.fresh) = true ∧
  done (self (step false Demo.fresh).1) = false.
Proof.
  split; [reflexivity|].
  apply (proj2 (proj2 (proj2 (step_has_no_guard false Demo.fresh)))
           0 1 1%Z ∅); reflexivity.
Defined.

Lemma none_is_a_key_for_change_task_witness :
  change_task None Demo.fresh =
    (MkMachine 1 [CallEnvFn None]
       (MkWrapper 2%positive {[ None := 2%positive ]} None true),
     Returns tt).
Proof.
  etrans.
  - apply (proj2 none_is_a_key_for_change_task Demo.fresh 1 2%positive);
      reflexivity.
  - vm_compute. reflexivity.
Defined.

(** ** The self-test at work *)

Import Bench.

Example bench_value :
  run_episodes 4 [Some 4%Z; None; Some 4%Z; Some (-1)%Z] Bench.start =
    Some (MkMachine (["NetHackScore"; "NetHackGold"; "NetHackScout"], 0)
            (calls (run [Reset (Some 4%Z) []; Step (); Step (); Step ();
                         Reset None []; Step (); Step (); Step ();
                         Reset (Some 4%Z) []; Step (); Step (); Step ();
                         Reset (Some (-1)%Z) []; Step (); Step (); Step ()]
                      Bench.start))
            (MkWrapper 3%positive
               {[ Some 4%Z := 2%positive; Some (-1)%Z := 3%positive ]} None true),
          Returns tt).
Proof. vm_compute. reflexivity. Qed.

(** Every round of an episode of the self-test world brings its end
    nearer, and an episode has three steps at most. *)
Lemma bench_sample_measure (e : Ref) (x : list string * nat) :
  (sample e x).1.2 ≤ x.2.
Proof. done. Qed.

Lemma bench_step_measure (e : Ref) (a : unit) (x x' : list string * nat)
    (obs : nat) (rew : Z) (info : gmap string Z) :
  env_step e a x = (x', inr (obs, rew, false, info)) → x'.2 < x.2.
Proof.
  destruct x as [l n]. simpl. unfold clock_step. simpl.
  intros [= <- _ _ Hd _]. simpl. case_bool_decide; [done|lia].
Qed.

Lemma bench_reset_measure (e : Ref) (kwargs : list (string * Z))
    (x : list string * nat) :
  (env_reset e kwargs x).1.2 ≤ 3.
Proof. done. Qed.

Lemma episode_pins_environment_witness :
  env (self (run [ChangeTask (Some 3%Z); Reset (Some 1%Z) []; Step false;
                  Reset None []] Demo.busy)) = 2%positive ∧
  task_envs (self (run [ChangeTask (Some 3%Z); Reset (Some 1%Z) []; Step false;
                        Reset None []] Demo.busy))
    = {[ Some 0%Z := 2%positive ]}.
Proof.
  assert (Ha : active_before_each
                 [ChangeTask (Some 3%Z); Reset (Some 1%Z) []; Step false;
                  Reset None []] Demo.busy = true) by (vm_compute; reflexivity).
  destruct (episode_pins_environment _ _ Ha) as (He & Hc & _).
  split; [rewrite He|rewrite Hc]; vm_compute; reflexivity.
Defined.

Lemma only_step_ends_episode_witness :
  ∃ action x obs rew info,
    Step (Kwargs := list (string * Z)) true = Step action ∧
    env_step (env (self Demo.busy)) action (outside Demo.busy)
      = (x, inr (obs, rew, true, info)).
Proof.
  apply (only_step_ends_episode (Step true) Demo.busy); reflexivity.
Defined.

Lemma reset_with_task_mid_episode_witness :
  reset (Some 1%Z) [] Demo.busy = (Demo.busy, Raises (RuntimeError mid_episode)).
Proof. apply (reset_with_task_mid_episode 1%Z [] Demo.busy). reflexivity. Defined.


Lemma change_task_idempotent_witness :
  change_task (Some 0%Z) (change_task (Some 0%Z) Demo.fresh).1
    = ((change_task (Some 0%Z) Demo.fresh).1, Returns tt).
Proof.
  apply (change_task_idempotent (Some 0%Z) Demo.fresh). vm_compute. reflexivity.
Defined.

Lemma active_env_is_cache_entry_witness :
  task_envs (self (reset (Some 1%Z) [] Demo.rested).1) !! Some 1%Z
    = Some (env (self (reset (Some 1%Z) [] Demo.rested).1)) ∧
  done (self (reset (Some 1%Z) [] Demo.rested).1) = false.
Proof.
  apply (proj2 active_env_is_cache_entry 1%Z [] Demo.rested _ 0).
  vm_compute. reflexivity.
Defined.

Lemma one_build_per_task_witness :
  factory_calls (Some 0%Z)
    (calls (run [Reset (Some 0%Z) []; Step true; Reset (Some (-1)%Z) [];
                 ChangeTask (Some (-1)%Z); Reset (Some 0%Z) []]
              (boot 0 1%positive (None : option unit)))) = 1.
Proof.
  etrans.
  - apply (one_build_per_task (Some 0%Z) 0 1%positive None).
    intros x. by exists (S x), (Pos.of_nat (x + 2)).
  - vm_compute. reflexivity.
Defined.

Lemma run_episode_ends_episode_witness :
  ∃ m', run_episode 4 (Some 4%Z) true Bench.start
          = Some (m', Returns (Some ("NetHackGold", 3%Z))) ∧
        done (self m') = true ∧
        env (self m') = 2%positive.
Proof.
  assert (Hr : run_episode 4 (Some 4%Z) true Bench.start =
    Some (MkMachine (["NetHackScore"; "NetHackGold"], 0)
            (calls (run [Reset (Some 4%Z) []; Step (); Step (); Step ()]
                      Bench.start))
            (MkWrapper 2%positive {[ Some 4%Z := 2%positive ]}
               (None : option unit) true),
          Returns (Some ("NetHackGold", 3%Z)))) by (vm_compute; reflexivity).
  eexists. split; [exact Hr|].
  split; [exact (proj1 (run_episode_ends_episode _ _ _ _ _ _ Hr))|reflexivity].
Defined.

Lemma run_episode_terminates_witness :
  is_Some (run_episode 4 (Some 6%Z) true Bench.start) ∧
  run_episode 100 (Some 6%Z) true Bench.start
    = run_episode 4 (Some 6%Z) true Bench.start.
Proof.
  destruct (run_episode_terminates (λ x, x.2) 3 4 (Some 6%Z) true Bench.start
              bench_sample_measure bench_step_measure bench_reset_measure)
    as [Hs Hf]; [lia|].
  split; [exact Hs|apply Hf; lia].
Defined.

Lemma same_task_loop_builds_nothing_witness :
  ∃ m', run_episodes 4 (replicate 2 None) Bench.start = Some (m', Returns tt) ∧
        env (self m') = 1%positive ∧
        task_envs (self m') = ∅ ∧
        outside m' = (["NetHackScore"], 0).
Proof.
  assert (Hr : run_episodes 4 (replicate 2 None) Bench.start =
    Some (MkMachine (["NetHackScore"], 0)
            (calls (run [Reset None []; Step (); Step (); Step ();
                         Reset None []; Step (); Step (); Step ()]
                      Bench.start))
            (MkWrapper 1%positive ∅ (None : option unit) true),
          Returns tt)) by (vm_compute; reflexivity).
  eexists. split; [exact Hr|].
  destruct (same_task_loop_builds_nothing _ _ _ _ _ Hr) as (He & Hc & _).
  split; [exact He|]. split; [exact Hc|reflexivity].
Defined.

Lemma swapping_loop_cache_bound_witness :
  ∃ m', run_episodes 4 [Some 3%Z; Some 0%Z; Some 3%Z] Bench.start
          = Some (m', Returns tt) ∧
        size (task_envs (self m')) ≤ 7.
Proof.
  assert (Hr : run_episodes 4 [Some 3%Z; Some 0%Z; Some 3%Z] Bench.start =
    Some (MkMachine (["NetHackScore"; "NetHackOracle"; "NetHackScore"], 0)
            (calls (run [Reset (Some 3%Z) []; Step (); Step (); Step ();
                         Reset (Some 0%Z) []; Step (); Step (); Step ();
                         Reset (Some 3%Z) []; Step (); Step (); Step ()]
                      Bench.start))
            (MkWrapper 2%positive
               {[ Some 3%Z := 2%positive; Some 0%Z := 3%positive ]}
               (None : option unit) true),
          Returns tt)) by (vm_compute; reflexivity).
  eexists. split; [exact Hr|].
  apply (proj2 (swapping_loop_cache_bound _ _ _ _ _ Hr) 7).
  - reflexivity.
  - intros t Ht. apply list_elem_of_In in Ht. simpl in Ht.
    destruct Ht as [<-|[<-|[<-|[]]]]; eexists; (split; [reflexivity|lia]).
Defined.

(** ** The self-test with a counter for every environment *)

Import Meters.

Lemma meters_sample_measure (e : Ref) (x : list string * gmap positive nat) :
  steps_left e (sample e x).1 ≤ steps_left e x.
Proof. done. Qed.

Lemma meters_step_measure (e : Ref) (a : unit)
    (x x' : list string * gmap positive nat)
    (obs : nat) (rew : Z) (info : gmap string Z) :
  env_step e a x = (x', inr (obs, rew, false, info)) →
  steps_left e x' < steps_left e x.
Proof.
  simpl. unfold meter_step. intros [= <- _ _ Hd _].
  unfold steps_left at 1. simpl. rewrite lookup_insert_eq. simpl.
  case_bool_decide; [done|lia].
Qed.

Lemma meters_reset_measure (e : Ref) (kwargs : list (string * Z))
    (x : list string * gmap positive nat) :
  steps_left e (env_reset e kwargs x).1 ≤ 3.
Proof. simpl. unfold steps_left. simpl. by rewrite lookup_insert_eq. Qed.

Example meters_value :
  run_episodes 4 [None; Some 2%Z; Some 7%Z; Some 2%Z] meters_start =
    Some (MkMachine
            (["NetHackScore"; "NetHackStaircasePet"],
             {[ 1%positive := 0; 2%positive := 0 ]})
            (calls (run [Reset None []; Step (); Step (); Step ();
                         Reset (Some 2%Z) []; Step (); Step (); Step ()]
                      meters_start) ++ [CallEnvFn (Some 7%Z)])
            (MkWrapper 2%positive {[ Some 2%Z := 2%positive ]} None true),
          Raises (Foreign "IndexError")).
Proof. vm_compute. reflexivity. Qed.

Lemma self_test_never_trips_guard_witness :
  ∃ m' out,
    run_episodes 4 [None; Some 2%Z; Some 5%Z; None; Some 2%Z] meters_start
      = Some (m', out) ∧
    own_error out = false ∧
    (out = Returns tt → done (self m') = true).
Proof.
  apply (self_test_never_trips_guard steps_left 3 4
           [None; Some 2%Z; Some 5%Z; None; Some 2%Z] meters_start
           meters_sample_measure meters_step_measure meters_reset_measure);
    [lia|reflexivity].
Defined.
